(** * The to-do application: state logic of both variants

    A shallow embedding of the script blocks of the two Vue components of
    the repository: the local-storage variant ([src/App.vue], module
    [Local]) and the remote-API variant (the second component, module
    [Remote]), followed by the properties of the specification.

    Conventions of the embedding.
    - A reactive [ref] is a field of the component's state record; an
      operation is a function from states to states.
    - The array of records is a [list]; a record object reached through a
      reference ([todos.value.find], the [todo] argument of [saveEdit]) is
      the position it occupies in the array, and an assignment to one of
      its fields rewrites the record at that position.
    - Whatever the environment decides (the clock, the outcome of a network
      request) is an argument of the operation.
    - An operation runs to completion: no other user intent is interleaved
      between a request and its response, except inside [clearCompleted],
      whose batch of requests is concurrent in the source. *)

From stdpp Require Import base gmap strings list pretty.

Local Open Scope string_scope.

(** ** JavaScript strings

    A character of a string is one UTF-16 code unit, and the strings are
    those whose code units are below 256. *)

Module JsString.

(** The white space and line terminators [String.prototype.trim] strips.
    Below 256 these are tab, line feed, vertical tab, form feed, carriage
    return (9 to 13), space (32) and no-break space (160); the others
    (U+1680, U+2000 to U+200A, U+2028, U+2029, U+202F, U+205F, U+3000,
    U+FEFF) are above. *)
Definition is_white (c : Ascii.ascii) : bool :=
  let n := Ascii.nat_of_ascii c in
  (n =? 32)%nat || ((9 <=? n)%nat && (n <=? 13)%nat) || (n =? 160)%nat.

Fixpoint trimStart (s : string) : string :=
  match s with
  | EmptyString => EmptyString
  | String c r => if is_white c then trimStart r else s
  end.

Definition trimEnd (s : string) : string :=
  String.rev (trimStart (String.rev s)).

Definition trim (s : string) : string := trimEnd (trimStart s).

(** [s.includes(needle)] *)
Fixpoint includes (s needle : string) : bool :=
  String.prefix needle s ||
  match s with
  | EmptyString => false
  | String _ r => includes r needle
  end.

(** [s.substring(0, n)] *)
Definition substring0 (n : nat) (s : string) : string :=
  String.substring 0 n s.

(** A string in a boolean position: only the empty string is falsy. *)
Definition truthy (s : string) : bool :=
  negb (String.eqb s "").

End JsString.

(** ** JavaScript arrays

    The array methods the components call.  A method that creates a new
    array returns it; a method that works in place returns the receiver
    after the call. *)

Module JsArray.
Section Methods.
Context {A : Type}.

(** [[...a]]: a new array with the same elements. *)
Definition spread (a : list A) : list A := a.

(** [a.filter(p)]: a new array. *)
Definition filter (p : A -> bool) (a : list A) : list A :=
  base.filter (fun x => p x = true) a.

(** [a.find(p)] and [a.findIndex(p)] at once: the first position whose
    element satisfies [p], with that element. *)
Definition find (p : A -> bool) (a : list A) : option (nat * A) :=
  list_find (fun x => p x = true) a.

(** [a.unshift(x)], in place. *)
Definition unshift (x : A) (a : list A) : list A := x :: a.

(** [a.splice(start, 0, x)], in place: [start] is clamped to the
    length, which [take] and [drop] do. *)
Definition splice_insert (start : nat) (x : A) (a : list A) : list A :=
  take start a ++ x :: drop start a.

(** [a.map(f)]: a new array. *)
Definition map {B : Type} (f : A -> B) (a : list A) : list B := f <$> a.

(** [a.some(p)] *)
Definition some (p : A -> bool) (a : list A) : bool := existsb p a.
End Methods.
End JsArray.

(** ** JSON values

    What [JSON.stringify] writes and [JSON.parse] reads.  A serialised text
    is represented by the value it denotes; the keys of an object are kept
    in the order [JSON.stringify] emits them.  Numbers are the integers. *)

#[warnings="-register-all"]
Inductive Json : Type :=
| JNull
| JBool (b : bool)
| JNum (n : Z)
| JStr (s : string)
| JArr (items : list Json)
| JObj (fields : list (string * Json)).

Module JsonValue.

(** Property read [o.k]: [None] is [undefined]. *)
Fixpoint assoc (k : string) (fields : list (string * Json)) : option Json :=
  match fields with
  | [] => None
  | (k', v) :: rest => if String.eqb k k' then Some v else assoc k rest
  end.

Definition get (k : string) (v : Json) : option Json :=
  match v with
  | JObj fields => assoc k fields
  | _ => None
  end.

Definition keys (v : Json) : list string :=
  match v with
  | JObj fields => fst <$> fields
  | _ => []
  end.

(** [Boolean(v)] for a JSON value or [undefined]. *)
Definition truthy (v : option Json) : bool :=
  match v with
  | None => false
  | Some JNull => false
  | Some (JBool b) => b
  | Some (JNum n) => negb (n =? 0)%Z
  | Some (JStr s) => JsString.truthy s
  | Some (JArr _) => true
  | Some (JObj _) => true
  end.

End JsonValue.

(** The three filter modes of both components. *)
Inductive Filter : Type := All | Active | Completed.

(** ** The local-storage variant ([src/App.vue]) *)

Module Local.

(** [interface Todo]  *)
Record Todo : Type := mkTodo {
  id : Z;
  text : string;
  completed : bool;
  createdAt : Z;
  isEditing : option bool
}.

(** The component's refs, and the history of [localStorage.setItem]
    calls on the key ['todos'] (oldest first): the slot holds the last
    value written. *)
Record State : Type := mkState {
  newTodo : string;
  todos : list Todo;
  filter : Filter;
  editedTodoText : string;
  activeTab : Filter;
  storage : list Json
}.

Definition initial (stored : list Json) : State :=
  mkState "" [] All "" All stored.

Definition set_newTodo (v : string) (s : State) : State :=
  mkState v (todos s) (filter s) (editedTodoText s) (activeTab s) (storage s).
Definition set_todos (v : list Todo) (s : State) : State :=
  mkState (newTodo s) v (filter s) (editedTodoText s) (activeTab s) (storage s).
Definition set_filter (v : Filter) (s : State) : State :=
  mkState (newTodo s) (todos s) v (editedTodoText s) (activeTab s) (storage s).
Definition set_editedTodoText (v : string) (s : State) : State :=
  mkState (newTodo s) (todos s) (filter s) v (activeTab s) (storage s).
Definition set_activeTab (v : Filter) (s : State) : State :=
  mkState (newTodo s) (todos s) (filter s) (editedTodoText s) v (storage s).
Definition setItem (v : Json) (s : State) : State :=
  mkState (newTodo s) (todos s) (filter s) (editedTodoText s) (activeTab s)
          (storage s ++ [v]).

Definition set_completed (b : bool) (t : Todo) : Todo :=
  mkTodo (id t) (text t) b (createdAt t) (isEditing t).
Definition set_text (v : string) (t : Todo) : Todo :=
  mkTodo (id t) v (completed t) (createdAt t) (isEditing t).
Definition set_isEditing (b : bool) (t : Todo) : Todo :=
  mkTodo (id t) (text t) (completed t) (createdAt t) (Some b).

(** [JSON.stringify] of one record: every own property, in creation
    order; a property whose value is [undefined] is left out. *)
Definition stringify_todo (t : Todo) : Json :=
  JObj ([("id", JNum (id t)); ("text", JStr (text t));
         ("completed", JBool (completed t));
         ("createdAt", JNum (createdAt t))]
        ++ match isEditing t with
           | Some b => [("isEditing", JBool b)]
           | None => []
           end).

Definition stringify (l : list Todo) : Json :=
  JArr (stringify_todo <$> l).

(** [JSON.parse], read at the type [Todo[]] the component gives it.  The
    source does not validate; a stored value that is not an array of
    records of the declared types is outside this model ([None]). *)
Definition parse_todo (v : Json) : option Todo :=
  match JsonValue.get "id" v, JsonValue.get "text" v,
        JsonValue.get "completed" v, JsonValue.get "createdAt" v with
  | Some (JNum i), Some (JStr x), Some (JBool c), Some (JNum d) =>
      match JsonValue.get "isEditing" v with
      | None => Some (mkTodo i x c d None)
      | Some (JBool e) => Some (mkTodo i x c d (Some e))
      | Some _ => None
      end
  | _, _, _, _ => None
  end.

Definition parse (v : Json) : option (list Todo) :=
  match v with
  | JArr items => mapM parse_todo items
  | _ => None
  end.

(** [localStorage.getItem('todos')] *)
Definition getItem (s : State) : option Json := last (storage s).

(** [onMounted]: [None] when the stored value is outside the model. *)
Definition onMounted (s : State) : option State :=
  match getItem s with
  | Some savedTodos =>
      match parse savedTodos with
      | Some l => Some (set_todos l s)
      | None => None
      end
  | None => Some s
  end.

Definition saveTodos (s : State) : State :=
  setItem (stringify (todos s)) s.

(** [addTodo]; [now_id] and [now_created] are the two readings of
    [Date.now()]. *)
Definition addTodo (now_id now_created : Z) (s : State) : State :=
  if JsString.truthy (JsString.trim (newTodo s)) then
    let s := set_todos
               (JsArray.unshift
                  (mkTodo now_id (JsString.trim (newTodo s)) false
                          now_created (Some false))
                  (todos s)) s in
    let s := set_newTodo "" s in
    saveTodos s
  else s.

Definition toggleTodo (id0 : Z) (s : State) : State :=
  match JsArray.find (fun t => (id t =? id0)%Z) (todos s) with
  | Some (i, todo) =>
      let s := set_todos
                 (<[i := set_completed (negb (completed todo)) todo]>
                    (todos s)) s in
      saveTodos s
  | None => s
  end.

Definition deleteTodo (id0 : Z) (s : State) : State :=
  let s := set_todos
             (JsArray.filter (fun t => negb (id t =? id0)%Z) (todos s)) s in
  saveTodos s.

Definition clearCompleted (s : State) : State :=
  let s := set_todos
             (JsArray.filter (fun t => negb (completed t)) (todos s)) s in
  saveTodos s.

(** The [todo] argument of the next three is the record at position [i]
    of the array (the template passes an element of the rendered list);
    a position outside the array does not arise and leaves the state as
    it is. *)
Definition startEditing (i : nat) (s : State) : State :=
  match todos s !! i with
  | Some todo =>
      let s := set_editedTodoText (text todo) s in
      set_todos (<[i := set_isEditing true todo]> (todos s)) s
  | None => s
  end.

Definition saveEdit (i : nat) (s : State) : State :=
  match todos s !! i with
  | Some todo =>
      if JsString.truthy (JsString.trim (editedTodoText s)) then
        let todo := set_text (JsString.trim (editedTodoText s)) todo in
        let todo := set_isEditing false todo in
        let s := set_todos (<[i := todo]> (todos s)) s in
        saveTodos s
      else s
  | None => s
  end.

Definition cancelEdit (i : nat) (s : State) : State :=
  match todos s !! i with
  | Some todo => set_todos (<[i := set_isEditing false todo]> (todos s)) s
  | None => s
  end.

(** The computed [filteredTodos]: the value, and [todos.value] after the
    evaluation. *)
Definition filteredTodos (s : State) : list Todo * list Todo :=
  let items := JsArray.spread (todos s) in
  (match filter s with
   | Active => JsArray.filter (fun t => negb (completed t)) items
   | Completed => JsArray.filter (fun t => completed t) items
   | All => items
   end, todos s).

Definition activeTodosCount (s : State) : nat :=
  length (JsArray.filter (fun t => negb (completed t)) (todos s)).

Definition setFilter (type : Filter) (s : State) : State :=
  set_activeTab type (set_filter type s).

(** The user intents the template dispatches, with what the environment
    supplies to each. *)
Inductive Op : Type :=
| TypeNewTodo (v : string)
| TypeEditedText (v : string)
| AddTodo (now_id now_created : Z)
| ToggleTodo (id0 : Z)
| DeleteTodo (id0 : Z)
| ClearCompleted
| StartEditing (i : nat)
| SaveEdit (i : nat)
| CancelEdit (i : nat)
| SetFilter (type : Filter).

Definition run (o : Op) (s : State) : State :=
  match o with
  | TypeNewTodo v => set_newTodo v s
  | TypeEditedText v => set_editedTodoText v s
  | AddTodo n1 n2 => addTodo n1 n2 s
  | ToggleTodo id0 => toggleTodo id0 s
  | DeleteTodo id0 => deleteTodo id0 s
  | ClearCompleted => clearCompleted s
  | StartEditing i => startEditing i s
  | SaveEdit i => saveEdit i s
  | CancelEdit i => cancelEdit i s
  | SetFilter type => setFilter type s
  end.

Definition run_all (ops : list Op) (s : State) : State :=
  foldl (fun s o => run o s) s ops.

(** [todo?.isEditing] in a boolean position: the position of the record
    when the optional argument is there and its flag is set. *)
Definition editing_target (todo : option nat) (s : State) : option nat :=
  match todo with
  | Some i =>
      match todos s !! i with
      | Some t => if default false (isEditing t) then Some i else None
      | None => None
      end
  | None => None
  end.

(** [handleKeyDown]; [key] is [e.key]. *)
Definition handleKeyDown (key : string) (todo : option nat)
    (now_id now_created : Z) (s : State) : State :=
  if String.eqb key "Enter" then
    match editing_target todo s with
    | Some i => saveEdit i s
    | None => addTodo now_id now_created s
    end
  else if String.eqb key "Escape" then
    match editing_target todo s with
    | Some i => cancelEdit i s
    | None => s
    end
  else s.

(** The [v-if] of the "Clear completed" button. *)
Definition show_clear_completed (s : State) : bool :=
  JsArray.some (fun t => completed t) (todos s).

(** The [v-if] of the empty-state row. *)
Definition show_empty_state (s : State) : bool :=
  (length (filteredTodos s).1 =? 0)%nat.

End Local.

(** ** The remote-API variant (the component that talks to the backend) *)

Module Remote.

(** [interface Todo] *)
Record Todo : Type := mkTodo {
  id : Z;
  title : string;
  completed : bool;
  createdAt : option string;
  isEditing : option bool
}.

Definition set_title (v : string) (t : Todo) : Todo :=
  mkTodo (id t) v (completed t) (createdAt t) (isEditing t).
Definition set_completed (b : bool) (t : Todo) : Todo :=
  mkTodo (id t) (title t) b (createdAt t) (isEditing t).
Definition set_isEditing (b : bool) (t : Todo) : Todo :=
  mkTodo (id t) (title t) (completed t) (createdAt t) (Some b).

(** *** The HTTP client *)

Definition API_BASE_URL : string := "http://localhost:8080".

(** [RequestInit], with the keys the component uses; [None] is a key the
    object does not have.  A header object is a map from names to values;
    a body is the value handed to [JSON.stringify]. *)
Record RequestInit : Type := mkInit {
  method : option string;
  body : option Json;
  headers : option (gmap string string)
}.

(** [{}], the default of the [options] parameter. *)
Definition no_options : RequestInit := mkInit None None None.

(** One key of the object literal [{ ...base, ...over }]: the later spread
    wins where it has the key. *)
Definition spread_key {A : Type} (base over : option A) : option A :=
  match over with
  | Some v => Some v
  | None => base
  end.

Definition spread_init (base over : RequestInit) : RequestInit :=
  mkInit (spread_key (method base) (method over))
         (spread_key (body base) (body over))
         (spread_key (headers base) (headers over)).

(** [{ 'Content-Type': 'application/json', ...options.headers }]: the
    spread of [undefined] adds nothing; a spread key overwrites the
    default ([∪] keeps its left operand's entry). *)
Definition default_headers (options : RequestInit) : gmap string string :=
  default ∅ (headers options) ∪ {[ "Content-Type" := "application/json" ]}.

(** The second argument of [fetch] in [apiRequest]:
    [{ headers: { ... }, ...options }]. *)
Definition fetch_init (options : RequestInit) : RequestInit :=
  spread_init (mkInit None None (Some (default_headers options))) options.

(** A call of [fetch], as the network sees it. *)
Record Sent : Type := mkSent {
  url : string;
  init : option RequestInit
}.

(** A thrown value: whether it is a [TypeError], and its message. *)
Record JsError : Type := mkError {
  is_type_error : bool;
  message : string
}.

(** [new Error(msg)] *)
Definition Error (msg : string) : JsError := mkError false msg.

(** How a promise settles. *)
Inductive Settled (A : Type) : Type :=
| Rejected (e : JsError)
| Fulfilled (a : A).
Arguments Rejected {A} e.
Arguments Fulfilled {A} a.

(** What the component reads of a [Response]; [A] is the type at which the
    caller reads the parsed body. *)
Record Response (A : Type) : Type := mkResponse {
  ok : bool;
  status : Z;
  content_type : option string;
  response_text : Settled string;
  response_json : Settled A
}.
Arguments mkResponse {A}.
Arguments ok {A}.
Arguments status {A}.
Arguments content_type {A}.
Arguments response_text {A}.
Arguments response_json {A}.

(** The outcome of [fetch]. *)
Definition FetchOutcome (A : Type) : Type := Settled (Response A).

(** The component's refs, and [sent], the calls of [fetch] so far (oldest
    first). *)
Record State : Type := mkState {
  newTodo : string;
  todos : list Todo;
  filter : Filter;
  editedTodoText : string;
  activeTab : Filter;
  loading : bool;
  error : string;
  sent : list Sent
}.

Definition initial : State := mkState "" [] All "" All false "" [].

Definition set_newTodo (v : string) (s : State) : State :=
  mkState v (todos s) (filter s) (editedTodoText s) (activeTab s)
          (loading s) (error s) (sent s).
Definition set_todos (v : list Todo) (s : State) : State :=
  mkState (newTodo s) v (filter s) (editedTodoText s) (activeTab s)
          (loading s) (error s) (sent s).
Definition set_filter (v : Filter) (s : State) : State :=
  mkState (newTodo s) (todos s) v (editedTodoText s) (activeTab s)
          (loading s) (error s) (sent s).
Definition set_editedTodoText (v : string) (s : State) : State :=
  mkState (newTodo s) (todos s) (filter s) v (activeTab s)
          (loading s) (error s) (sent s).
Definition set_activeTab (v : Filter) (s : State) : State :=
  mkState (newTodo s) (todos s) (filter s) (editedTodoText s) v
          (loading s) (error s) (sent s).
Definition set_loading (v : bool) (s : State) : State :=
  mkState (newTodo s) (todos s) (filter s) (editedTodoText s) (activeTab s)
          v (error s) (sent s).
Definition set_error (v : string) (s : State) : State :=
  mkState (newTodo s) (todos s) (filter s) (editedTodoText s) (activeTab s)
          (loading s) v (sent s).
Definition fetch (u : string) (i : option RequestInit) (s : State) : State :=
  mkState (newTodo s) (todos s) (filter s) (editedTodoText s) (activeTab s)
          (loading s) (error s) (sent s ++ [mkSent u i]).

(** [apiRequest], first half: up to the first [await], the call of
    [fetch]. *)
Definition apiRequest_send (endpoint : string) (options : RequestInit)
    (s : State) : State :=
  fetch (API_BASE_URL ++ endpoint) (Some (fetch_init options)) s.

(** The body of the [try] block of [apiRequest] after [fetch] settled. *)
Definition apiRequest_try {A : Type} (r : FetchOutcome A) : Settled A :=
  match r with
  | Rejected e => Rejected e
  | Fulfilled response =>
      if negb (ok response) then
        let errorMessage := "HTTP error! status: " ++ pretty (status response) in
        let errorMessage :=
          match response_text response with
          | Fulfilled errorText =>
              if JsString.truthy errorText then errorText else errorMessage
          | Rejected _ => errorMessage
          end in
        Rejected (Error errorMessage)
      else
        let is_json :=
          match content_type response with
          | Some contentType =>
              JsString.truthy contentType
              && JsString.includes contentType "application/json"
          | None => false
          end in
        if is_json then response_json response
        else
          match response_text response with
          | Fulfilled text =>
              Rejected (Error ("Expected JSON response but received: "
                               ++ JsString.substring0 100 text))
          | Rejected e => Rejected e
          end
  end.

(** The [catch] block of [apiRequest]: what it writes to [error.value]. *)
Definition apiRequest_catch (err : JsError) : string :=
  if is_type_error err && JsString.includes (message err) "fetch" then
    "Cannot connect to server. Make sure the backend is running on "
    ++ API_BASE_URL
  else message err.

(** [apiRequest], second half: the response arrives. *)
Definition apiRequest_settle {A : Type} (r : FetchOutcome A) (s : State)
    : State * Settled A :=
  match apiRequest_try r with
  | Fulfilled data => (s, Fulfilled data)
  | Rejected err => (set_error (apiRequest_catch err) s, Rejected err)
  end.

Definition apiRequest {A : Type} (endpoint : string) (options : RequestInit)
    (r : FetchOutcome A) (s : State) : State * Settled A :=
  apiRequest_settle r (apiRequest_send endpoint options s).

(** The request failed: [apiRequest] threw. *)
Definition fails {A : Type} (r : FetchOutcome A) : Prop :=
  exists err, apiRequest_try r = Rejected err.

Definition failsb {A : Type} (r : FetchOutcome A) : bool :=
  match apiRequest_try r with
  | Rejected _ => true
  | Fulfilled _ => false
  end.

(** [testConnection]; [r] is the outcome of the plain [fetch], read at its
    status. *)
Definition testConnection (r : Settled Z) (s : State) : State * bool :=
  let s := set_loading true s in
  let s := set_error "" s in
  let s := fetch (API_BASE_URL ++ "/todos") None s in
  let failed :=
    match r with
    | Fulfilled response_status => (response_status =? 0)%Z
    | Rejected _ => true
    end in
  if failed then
    let s := set_error
               ("Cannot connect to backend server. Please check if it's running on "
                ++ API_BASE_URL) s in
    (set_loading false s, false)
  else (set_loading false s, true).

(** *** What the server returns

    The parsed bodies are [any] in the source.  They are read here at the
    types the component declares for what it copies, with every field the
    code guards against being absent kept optional. *)

(** One element of the list [GET /todos] returns.  [completed] is any
    JSON value or [undefined]: the component coerces it. *)
Record RawTodo : Type := mkRaw {
  raw_id : Z;
  raw_title : option string;
  raw_text : option string;
  raw_completed : option Json;
  raw_createdAt : option string
}.

(** The body of [GET /todos]: [null]; an array; or some other value, with
    the array under its [todos] key when it has one. *)
Inductive TodosPayload : Type :=
| PNull
| PArray (items : list RawTodo)
| PObject (todos_key : option (list RawTodo)).

(** The body of [POST /todos], when it is not [null]. *)
Record Created : Type := mkCreated {
  created_id : Z;
  created_title : string;
  created_completed : option bool;
  created_createdAt : option string
}.

(** The body of [PUT /todos/{id}], when it is not [null]. *)
Record Updated : Type := mkUpdated {
  updated_title : string;
  updated_completed : bool
}.

(** [a || b] on strings that may be [undefined]. *)
Definition or_else (a b : option string) : option string :=
  match a with
  | Some x => if JsString.truthy x then a else b
  | None => b
  end.

(** [a || ''] *)
Definition or_empty (a : option string) : string :=
  match a with
  | Some x => if JsString.truthy x then x else ""
  | None => ""
  end.

(** The arrow function [fetchTodos] maps over the array. *)
Definition normalize (todo : RawTodo) : Todo :=
  mkTodo (raw_id todo)
         (or_empty (or_else (raw_title todo) (raw_text todo)))
         (JsonValue.truthy (raw_completed todo))
         (raw_createdAt todo)
         (Some false).

(** [Array.isArray(data) ? data : (data.todos || [])]; [None] when the
    expression throws (a property of [null]). *)
Definition todoArray (data : TodosPayload) : option (list RawTodo) :=
  match data with
  | PNull => None
  | PArray items => Some items
  | PObject (Some items) => Some items
  | PObject None => Some []
  end.

(** *** The mutation controller *)

(** [fetchTodos] up to the [await]. *)
Definition fetchTodos_send (s : State) : State :=
  let s := set_loading true s in
  let s := set_error "" s in
  apiRequest_send "/todos" no_options s.

(** [fetchTodos] from the response on. *)
Definition fetchTodos_settle (r : FetchOutcome TodosPayload) (s : State)
    : State :=
  let '(s, res) := apiRequest_settle r s in
  let s :=
    match res with
    | Fulfilled data =>
        match todoArray data with
        | Some arr => set_todos (JsArray.map normalize arr) s
        | None => s
        end
    | Rejected _ => s
    end in
  set_loading false s.

Definition fetchTodos (r : FetchOutcome TodosPayload) (s : State) : State :=
  fetchTodos_settle r (fetchTodos_send s).

(** [onMounted] *)
Definition onMounted (rc : Settled Z) (r : FetchOutcome TodosPayload)
    (s : State) : State :=
  let '(s, connected) := testConnection rc s in
  if connected then fetchTodos r s else s.

Definition retryConnection (r : FetchOutcome TodosPayload) (s : State)
    : State :=
  fetchTodos r s.

Definition addTodo (r : FetchOutcome (option Created)) (s : State) : State :=
  if negb (JsString.truthy (JsString.trim (newTodo s))) then s
  else
    let s := set_loading true s in
    let s := set_error "" s in
    let '(s, res) :=
      apiRequest "/todos"
        (mkInit (Some "POST")
                (Some (JObj [("title", JStr (JsString.trim (newTodo s)))]))
                None) r s in
    let s :=
      match res with
      | Fulfilled (Some newTodoData) =>
          let s := set_todos
                     (JsArray.unshift
                        (mkTodo (created_id newTodoData)
                                (created_title newTodoData)
                                (default false (created_completed newTodoData))
                                (created_createdAt newTodoData)
                                (Some false))
                        (todos s)) s in
          set_newTodo "" s
      | Fulfilled None => s
      | Rejected _ => s
      end in
    set_loading false s.

(** The path [`/todos/${id}`]. *)
Definition todo_endpoint (id0 : Z) : string := "/todos/" ++ pretty id0.

(** The body of both [PUT] requests. *)
Definition put_body (todo : Todo) : Json :=
  JObj [("title", JStr (title todo)); ("completed", JBool (completed todo))].

Definition toggleTodo (id0 : Z) (r : FetchOutcome (option Updated))
    (s : State) : State :=
  match JsArray.find (fun t => (id t =? id0)%Z) (todos s) with
  | None => s
  | Some (i, todo) =>
      let originalCompleted := completed todo in
      let todo := set_completed (negb (completed todo)) todo in
      let s := set_todos (<[i := todo]> (todos s)) s in
      let '(s, res) :=
        apiRequest (todo_endpoint id0)
          (mkInit (Some "PUT") (Some (put_body todo)) None) r s in
      match res with
      | Fulfilled (Some updatedTodo) =>
          set_todos
            (<[i := set_completed (updated_completed updatedTodo) todo]>
               (todos s)) s
      | Fulfilled None | Rejected _ =>
          set_todos (<[i := set_completed originalCompleted todo]> (todos s)) s
      end
  end.

Definition deleteTodo (id0 : Z) (r : FetchOutcome unit) (s : State) : State :=
  match JsArray.find (fun t => (id t =? id0)%Z) (todos s) with
  | None => s
  | Some (todoIndex, todoBackup) =>
      let s := set_todos
                 (JsArray.filter (fun t => negb (id t =? id0)%Z) (todos s)) s in
      let '(s, res) :=
        apiRequest (todo_endpoint id0) (mkInit (Some "DELETE") None None) r s in
      match res with
      | Fulfilled _ => s
      | Rejected _ =>
          set_todos (JsArray.splice_insert todoIndex todoBackup (todos s)) s
      end
  end.

(** The state after some of the requests in flight settled: a request
    that succeeds writes nothing, one that fails writes [error.value]. *)
Definition settle_all {A : Type} (rs : list (FetchOutcome A)) (s : State)
    : State :=
  foldl (fun s r => fst (apiRequest_settle r s)) s rs.

(** [clearCompleted].  The requests of the batch leave in the order of
    [completedTodos]; [settles n] is the outcome of the one that settles
    [n]-th.  [Promise.all] rejects at the first rejection and the [catch]
    block starts [fetchTodos] while the rest of the batch is still in
    flight: [k] of those settle before the response to [GET /todos], the
    others after it. *)
Definition clearCompleted (settles : nat -> FetchOutcome unit) (k : nat)
    (r : FetchOutcome TodosPayload) (s : State) : State :=
  let completedTodos := JsArray.filter (fun t => completed t) (todos s) in
  let s :=
    foldl (fun s todo =>
             apiRequest_send (todo_endpoint (id todo))
                             (mkInit (Some "DELETE") None None) s)
          s completedTodos in
  let outcomes := settles <$> seq 0 (length completedTodos) in
  match JsArray.find failsb outcomes with
  | None =>
      set_todos (JsArray.filter (fun t => negb (completed t)) (todos s)) s
  | Some (j, rejected) =>
      let s := fst (apiRequest_settle rejected s) in
      let in_flight := drop (S j) outcomes in
      let s := fetchTodos_send s in
      let s := settle_all (take k in_flight) s in
      let s := fetchTodos_settle r s in
      settle_all (drop k in_flight) s
  end.

(** The [todo] argument of the next three is the record at position [i]
    of the array (the template passes an element of the rendered list); a
    position outside the array does not arise and leaves the state as it
    is. *)
Definition startEditing (i : nat) (s : State) : State :=
  match todos s !! i with
  | Some todo =>
      let s := set_editedTodoText (title todo) s in
      set_todos (<[i := set_isEditing true todo]> (todos s)) s
  | None => s
  end.

Definition cancelEdit (i : nat) (s : State) : State :=
  match todos s !! i with
  | Some todo =>
      let s := set_todos (<[i := set_isEditing false todo]> (todos s)) s in
      set_editedTodoText "" s
  | None => s
  end.

Definition saveEdit (i : nat) (r : FetchOutcome (option Updated))
    (s : State) : State :=
  match todos s !! i with
  | None => s
  | Some todo =>
      if negb (JsString.truthy (JsString.trim (editedTodoText s))) then
        cancelEdit i s
      else
        let originalTitle := title todo in
        let todo := set_title (JsString.trim (editedTodoText s)) todo in
        let todo := set_isEditing false todo in
        let s := set_todos (<[i := todo]> (todos s)) s in
        let '(s, res) :=
          apiRequest (todo_endpoint (id todo))
            (mkInit (Some "PUT") (Some (put_body todo)) None) r s in
        match res with
        | Fulfilled (Some updatedTodo) =>
            set_todos
              (<[i := set_title (updated_title updatedTodo) todo]> (todos s)) s
        | Fulfilled None | Rejected _ =>
            let todo := set_title originalTitle todo in
            let todo := set_isEditing true todo in
            set_todos (<[i := todo]> (todos s)) s
        end
  end.

(** The computed [filteredTodos]: the value, and [todos.value] after the
    evaluation. *)
Definition filteredTodos (s : State) : list Todo * list Todo :=
  let items := JsArray.spread (todos s) in
  (match filter s with
   | Active => JsArray.filter (fun t => negb (completed t)) items
   | Completed => JsArray.filter (fun t => completed t) items
   | All => items
   end, todos s).

Definition activeTodosCount (s : State) : nat :=
  length (JsArray.filter (fun t => negb (completed t)) (todos s)).

Definition setFilter (type : Filter) (s : State) : State :=
  set_activeTab type (set_filter type s).

(** The user intents the template dispatches and the mount hook, each
    with what the environment supplies to it. *)
Inductive Op : Type :=
| Mounted (rc : Settled Z) (r : FetchOutcome TodosPayload)
| RetryConnection (r : FetchOutcome TodosPayload)
| DismissError
| TypeNewTodo (v : string)
| TypeEditedText (v : string)
| AddTodo (r : FetchOutcome (option Created))
| ToggleTodo (id0 : Z) (r : FetchOutcome (option Updated))
| DeleteTodo (id0 : Z) (r : FetchOutcome unit)
| ClearCompleted (settles : nat -> FetchOutcome unit) (k : nat)
                 (r : FetchOutcome TodosPayload)
| StartEditing (i : nat)
| SaveEdit (i : nat) (r : FetchOutcome (option Updated))
| CancelEdit (i : nat)
| SetFilter (type : Filter).

Definition run (o : Op) (s : State) : State :=
  match o with
  | Mounted rc r => onMounted rc r s
  | RetryConnection r => retryConnection r s
  | DismissError => set_error "" s
  | TypeNewTodo v => set_newTodo v s
  | TypeEditedText v => set_editedTodoText v s
  | AddTodo r => addTodo r s
  | ToggleTodo id0 r => toggleTodo id0 r s
  | DeleteTodo id0 r => deleteTodo id0 r s
  | ClearCompleted settles k r => clearCompleted settles k r s
  | StartEditing i => startEditing i s
  | SaveEdit i r => saveEdit i r s
  | CancelEdit i => cancelEdit i s
  | SetFilter type => setFilter type s
  end.

(** A run in which the operations do not overlap: each one goes from its
    request to its response before the next intent is dispatched.  The
    source does not enforce this; what an overlap can do is shown with
    the two halves of [deleteTodo] below. *)
Definition run_all (ops : list Op) (s : State) : State :=
  foldl (fun s o => run o s) s ops.

(** [deleteTodo] up to the [await]: the state with the request on its
    way, and the [todoIndex] and [todoBackup] the function holds on to;
    [None] when it returns at once. *)
Definition deleteTodo_send (id0 : Z) (s : State)
    : option (State * nat * Todo) :=
  match JsArray.find (fun t => (id t =? id0)%Z) (todos s) with
  | None => None
  | Some (todoIndex, todoBackup) =>
      let s := set_todos
                 (JsArray.filter (fun t => negb (id t =? id0)%Z) (todos s)) s in
      Some (apiRequest_send (todo_endpoint id0)
              (mkInit (Some "DELETE") None None) s,
            todoIndex, todoBackup)
  end.

(** [deleteTodo] from the response on, in whatever state the component
    is by then. *)
Definition deleteTodo_settle (todoIndex : nat) (todoBackup : Todo)
    (r : FetchOutcome unit) (s : State) : State :=
  let '(s, res) := apiRequest_settle r s in
  match res with
  | Fulfilled _ => s
  | Rejected _ =>
      set_todos (JsArray.splice_insert todoIndex todoBackup (todos s)) s
  end.

(** The [v-if] of the "Clear completed" button. *)
Definition show_clear_completed (s : State) : bool :=
  JsArray.some (fun t => completed t) (todos s).

(** The [v-if] of the empty-state row:
    [filteredTodos.length === 0 && !loading && !error]. *)
Definition show_empty_state (s : State) : bool :=
  (length (filteredTodos s).1 =? 0)%nat
  && negb (loading s) && negb (JsString.truthy (error s)).

(** The [v-if] of the error banner. *)
Definition show_error (s : State) : bool := JsString.truthy (error s).

End Remote.

(** * Vocabulary of the properties *)

Module Spec.

(** The title the specification gives a normalised record: the raw
    item's [title] field if present, else its [text] field if present,
    else the empty string. *)
Definition spec_title (todo : Remote.RawTodo) : string :=
  match Remote.raw_title todo with
  | Some x => x
  | None =>
      match Remote.raw_text todo with
      | Some y => y
      | None => ""
      end
  end.

(** A field that is absent or holds the empty string. *)
Definition blank (a : option string) : Prop := a = None ∨ a = Some "".

(** The request carries a body with an [isEditing] key. *)
Definition sends_isEditing (x : Remote.Sent) : Prop :=
  exists i b,
    Remote.init x = Some i ∧ Remote.body i = Some b
    ∧ "isEditing" ∈ JsonValue.keys b.

(** No body of the request has an [isEditing] key. *)
Definition clean (x : Remote.Sent) : Prop := ¬ sends_isEditing x.

(** The stored value is an array one of whose elements has an
    [isEditing] key. *)
Definition stores_isEditing (v : Json) : Prop :=
  match v with
  | JArr items => exists item, item ∈ items ∧ "isEditing" ∈ JsonValue.keys item
  | _ => False
  end.

(** The ids of the collection, in order. *)
Definition remote_ids (s : Remote.State) : list Z :=
  Remote.id <$> Remote.todos s.

Definition local_ids (s : Local.State) : list Z :=
  Local.id <$> Local.todos s.

(** The list a response to [GET /todos] would install has no repeated
    id. *)
Definition distinct_payload (r : Remote.FetchOutcome Remote.TodosPayload)
    : Prop :=
  forall data arr,
    Remote.apiRequest_try r = Remote.Fulfilled data ->
    Remote.todoArray data = Some arr ->
    NoDup (Remote.raw_id <$> arr).

(** What the environment hands to the operation brings no id the
    collection already has: the server's list has distinct ids, the
    created record has a new id. *)
Definition remote_fresh (o : Remote.Op) (s : Remote.State) : Prop :=
  match o with
  | Remote.Mounted _ r => distinct_payload r
  | Remote.RetryConnection r => distinct_payload r
  | Remote.ClearCompleted _ _ r => distinct_payload r
  | Remote.AddTodo r =>
      forall d,
        Remote.apiRequest_try r = Remote.Fulfilled (Some d) ->
        Remote.created_id d ∉ remote_ids s
  | _ => True
  end.

Fixpoint remote_fresh_all (ops : list Remote.Op) (s : Remote.State) : Prop :=
  match ops with
  | [] => True
  | o :: ops => remote_fresh o s ∧ remote_fresh_all ops (Remote.run o s)
  end.

(** The clock reading [addTodo] takes as id is not an id of the
    collection. *)
Definition local_fresh (o : Local.Op) (s : Local.State) : Prop :=
  match o with
  | Local.AddTodo now_id _ => now_id ∉ local_ids s
  | _ => True
  end.

Fixpoint local_fresh_all (ops : list Local.Op) (s : Local.State) : Prop :=
  match ops with
  | [] => True
  | o :: ops => local_fresh o s ∧ local_fresh_all ops (Local.run o s)
  end.

(** What a record of the local variant holds besides the editing flag. *)
Definition content (t : Local.Todo) : Z * string * bool * Z :=
  (Local.id t, Local.text t, Local.completed t, Local.createdAt t).

(** The storage slot holds the collection, the editing flags apart; an
    empty slot goes with an empty collection. *)
Definition synced (s : Local.State) : Prop :=
  match Local.getItem s with
  | Some v =>
      exists l, Local.parse v = Some l
                ∧ content <$> l = content <$> Local.todos s
  | None => Local.todos s = []
  end.

(** The characters of a string. *)
Definition chars (s : string) : list Ascii.ascii :=
  String.list_ascii_of_string s.

(** [trimStart] on lists of characters. *)
Fixpoint drop_white (l : list Ascii.ascii) : list Ascii.ascii :=
  match l with
  | [] => []
  | c :: r => if JsString.is_white c then drop_white r else l
  end.

(** The string does not start, and does not end, with white space. *)
Definition no_white_ends (s : string) : Prop :=
  (forall c, head (chars s) = Some c -> JsString.is_white c = false)
  ∧ (forall c, last (chars s) = Some c -> JsString.is_white c = false).

(** The headers [apiRequest] sends for a caller that passes none. *)
Definition json_headers : gmap string string :=
  {[ "Content-Type" := "application/json" ]}.

(** The calls of [fetch] the component makes: the probe of
    [testConnection], and the four requests of the service. *)
Inductive api_call : Remote.Sent -> Prop :=
| call_probe :
    api_call (Remote.mkSent (Remote.API_BASE_URL ++ "/todos") None)
| call_list :
    api_call (Remote.mkSent (Remote.API_BASE_URL ++ "/todos")
                (Some (Remote.mkInit None None (Some json_headers))))
| call_create (t : string) :
    t ≠ "" -> no_white_ends t ->
    api_call (Remote.mkSent (Remote.API_BASE_URL ++ "/todos")
                (Some (Remote.mkInit (Some "POST")
                         (Some (JObj [("title", JStr t)]))
                         (Some json_headers))))
| call_update (id0 : Z) (t : string) (c : bool) :
    api_call (Remote.mkSent
                (Remote.API_BASE_URL ++ Remote.todo_endpoint id0)
                (Some (Remote.mkInit (Some "PUT")
                         (Some (JObj [("title", JStr t);
                                      ("completed", JBool c)]))
                         (Some json_headers))))
| call_delete (id0 : Z) :
    api_call (Remote.mkSent
                (Remote.API_BASE_URL ++ Remote.todo_endpoint id0)
                (Some (Remote.mkInit (Some "DELETE") None
                         (Some json_headers)))).

End Spec.

(** * Properties *)

Local Open Scope list_scope.

(** ** Derived views *)

Section Views.
Context {A : Type}.
Implicit Types (p : A -> bool) (l : list A).

Lemma js_filter_elem p l x :
  x ∈ JsArray.filter p l ↔ x ∈ l ∧ p x = true.
Proof. unfold JsArray.filter. rewrite list_elem_of_filter. tauto. Qed.

Lemma js_filter_sublist p l : sublist (JsArray.filter p l) l.
Proof. apply sublist_filter. Qed.

Lemma js_filter_split p l x :
  x ∈ l ↔ x ∈ JsArray.filter (fun y => negb (p y)) l ∨ x ∈ JsArray.filter p l.
Proof.
  rewrite !js_filter_elem. split.
  - intros Hx. destruct (p x) eqn:Hp; [right | left]; auto.
  - intros [[Hx _] | [Hx _]]; exact Hx.
Qed.

Lemma js_filter_disjoint p l x :
  ¬ (x ∈ JsArray.filter (fun y => negb (p y)) l ∧ x ∈ JsArray.filter p l).
Proof.
  rewrite !js_filter_elem. intros [[_ Hn] [_ Hp]].
  rewrite Hp in Hn. discriminate.
Qed.
End Views.

(** C9 (both variants).  With the filter set to ['active'] and to
    ['completed'], [filteredTodos] splits the collection in two: a record
    is in the collection exactly when it is in one of the two views, no
    record is in both, each view is a subsequence of the collection (the
    original order is kept), and evaluating the view, whatever the filter,
    leaves [todos.value] as it was. *)
Theorem filteredTodos_partition :
  (forall s : Remote.State,
     let active := (Remote.filteredTodos (Remote.set_filter Active s)).1 in
     let done := (Remote.filteredTodos (Remote.set_filter Completed s)).1 in
     (forall t, t ∈ Remote.todos s ↔ t ∈ active ∨ t ∈ done)
     ∧ (forall t, ¬ (t ∈ active ∧ t ∈ done))
     ∧ sublist active (Remote.todos s)
     ∧ sublist done (Remote.todos s)
     ∧ forall m, (Remote.filteredTodos (Remote.set_filter m s)).2
                 = Remote.todos s)
  ∧
  (forall s : Local.State,
     let active := (Local.filteredTodos (Local.set_filter Active s)).1 in
     let done := (Local.filteredTodos (Local.set_filter Completed s)).1 in
     (forall t, t ∈ Local.todos s ↔ t ∈ active ∨ t ∈ done)
     ∧ (forall t, ¬ (t ∈ active ∧ t ∈ done))
     ∧ sublist active (Local.todos s)
     ∧ sublist done (Local.todos s)
     ∧ forall m, (Local.filteredTodos (Local.set_filter m s)).2
                 = Local.todos s).
Proof.
  split; intros s; cbn; unfold JsArray.spread;
    (split; [intros t; apply js_filter_split |]);
    (split; [intros t; apply js_filter_disjoint |]);
    (split; [apply js_filter_sublist |]);
    (split; [apply js_filter_sublist | reflexivity]).
Qed.

(** C10 (both variants).  The counter of active items is the length of
    the view [filteredTodos] computes when the filter is ['active']. *)
Theorem activeTodosCount_filteredTodos :
  (forall s : Remote.State,
     Remote.activeTodosCount s
     = length (Remote.filteredTodos (Remote.set_filter Active s)).1)
  ∧
  (forall s : Local.State,
     Local.activeTodosCount s
     = length (Local.filteredTodos (Local.set_filter Active s)).1).
Proof. split; intros s; reflexivity. Qed.

(** ** Empty titles *)

Lemma truthy_empty (x : string) : x = "" -> JsString.truthy x = false.
Proof. intros ->. reflexivity. Qed.

(** C7 (both variants).  When the trimmed input is empty, [addTodo]
    returns the state it was given: the collection, the list of requests
    sent (remote variant) and the history of storage writes (local
    variant) are all unchanged. *)
Theorem addTodo_blank_noop :
  (forall (r : Remote.FetchOutcome (option Remote.Created)) (s : Remote.State),
     JsString.trim (Remote.newTodo s) = "" -> Remote.addTodo r s = s)
  ∧
  (forall (now_id now_created : Z) (s : Local.State),
     JsString.trim (Local.newTodo s) = "" ->
     Local.addTodo now_id now_created s = s).
Proof.
  split.
  - intros r s H. unfold Remote.addTodo. by rewrite (truthy_empty _ H).
  - intros n1 n2 s H. unfold Local.addTodo. by rewrite (truthy_empty _ H).
Qed.

Lemma addTodo_blank_noop_witness :
  let r : Remote.FetchOutcome (option Remote.Created) :=
    Remote.Rejected (Remote.mkError true "Failed to fetch") in
  let s := Remote.set_newTodo "   " Remote.initial in
  let l := Local.set_newTodo "   " (Local.initial []) in
  (JsString.trim (Remote.newTodo s) = ""
   ∧ Remote.addTodo r s = s
   ∧ Remote.sent (Remote.addTodo r s) = [])
  ∧ (JsString.trim (Local.newTodo l) = ""
     ∧ Local.addTodo 1700000000000 1700000000000 l = l
     ∧ Local.storage (Local.addTodo 1700000000000 1700000000000 l) = []).
Proof.
  cbv zeta.
  split.
  - split; [reflexivity |].
    split.
    + apply (proj1 addTodo_blank_noop). reflexivity.
    + reflexivity.
  - split; [reflexivity |].
    split.
    + apply (proj2 addTodo_blank_noop). reflexivity.
    + reflexivity.
Defined.

(** ** Facts about the array methods *)

Section ArrayFacts.
Context {A : Type}.
Implicit Types (p : A -> bool) (l : list A).

Lemma js_find_Some p l i x :
  JsArray.find p l = Some (i, x) ->
  l !! i = Some x ∧ p x = true
  ∧ forall j y, l !! j = Some y -> j < i -> p y = false.
Proof.
  unfold JsArray.find. rewrite list_find_Some.
  intros (Hl & Hp & Hmin). repeat split; [done.. |].
  intros j y Hj Hlt. specialize (Hmin j y Hj Hlt).
  by destruct (p y).
Qed.

Lemma js_find_None p l x :
  JsArray.find p l = None -> x ∈ l -> p x = false.
Proof.
  unfold JsArray.find. rewrite list_find_None, Forall_forall.
  intros H Hx. specialize (H x Hx). by destruct (p x).
Qed.

Lemma js_filter_all p l :
  (forall x, x ∈ l -> p x = true) -> JsArray.filter p l = l.
Proof.
  unfold JsArray.filter. induction l as [| a l IH]; intros H; [done |].
  rewrite filter_cons_True by (apply H; left).
  f_equal. apply IH. intros x Hx. apply H. by right.
Qed.

Lemma js_filter_app p l1 l2 :
  JsArray.filter p (l1 ++ l2) = JsArray.filter p l1 ++ JsArray.filter p l2.
Proof. apply filter_app. Qed.

(** Taking out the one element that fails [p], then putting it back at
    its position with [splice], gives the array back. *)
Lemma js_splice_after_filter p l i x :
  l !! i = Some x ->
  p x = false ->
  (forall j y, l !! j = Some y -> p y = false -> j = i) ->
  JsArray.splice_insert i x (JsArray.filter p l) = l.
Proof.
  intros Hi Hx Huniq.
  assert (Hlen : length (take i l) = i).
  { apply length_take_le. apply lookup_lt_Some in Hi. lia. }
  rewrite <- (take_drop_middle l i x Hi) at 1.
  rewrite js_filter_app. unfold JsArray.filter at 2.
  rewrite filter_cons_False by (rewrite Hx; discriminate).
  fold (JsArray.filter p (drop (S i) l)).
  rewrite !js_filter_all.
  - unfold JsArray.splice_insert.
    rewrite take_app_length', drop_app_length' by done.
    by apply take_drop_middle.
  - intros y Hy. apply list_elem_of_lookup in Hy as [j Hj].
    rewrite lookup_drop in Hj.
    destruct (p y) eqn:Hp; [done |].
    specialize (Huniq _ _ Hj Hp). lia.
  - intros y Hy. apply list_elem_of_lookup in Hy as [j Hj].
    apply lookup_take_Some in Hj as [Hj Hlt].
    destruct (p y) eqn:Hp; [done |].
    specialize (Huniq _ _ Hj Hp). lia.
Qed.
End ArrayFacts.

(** ** Facts about the HTTP client *)

Section Client.
Context {A : Type}.
Implicit Types (r : Remote.FetchOutcome A) (s : Remote.State).

Lemma apiRequest_rejected endpoint options r s err :
  Remote.apiRequest_try r = Remote.Rejected err ->
  Remote.apiRequest endpoint options r s
  = (Remote.set_error (Remote.apiRequest_catch err)
       (Remote.apiRequest_send endpoint options s),
     Remote.Rejected err).
Proof.
  intros H. unfold Remote.apiRequest, Remote.apiRequest_settle. by rewrite H.
Qed.

Lemma apiRequest_fulfilled endpoint options r s data :
  Remote.apiRequest_try r = Remote.Fulfilled data ->
  Remote.apiRequest endpoint options r s
  = (Remote.apiRequest_send endpoint options s, Remote.Fulfilled data).
Proof.
  intros H. unfold Remote.apiRequest, Remote.apiRequest_settle. by rewrite H.
Qed.

Lemma todos_apiRequest_settle r s :
  Remote.todos (Remote.apiRequest_settle r s).1 = Remote.todos s.
Proof.
  unfold Remote.apiRequest_settle.
  by destruct (Remote.apiRequest_try r).
Qed.

Lemma sent_apiRequest_settle r s :
  Remote.sent (Remote.apiRequest_settle r s).1 = Remote.sent s.
Proof.
  unfold Remote.apiRequest_settle.
  by destruct (Remote.apiRequest_try r).
Qed.

Lemma failsb_fails r : Remote.failsb r = true ↔ Remote.fails r.
Proof.
  unfold Remote.failsb, Remote.fails.
  destruct (Remote.apiRequest_try r); split; try done; eauto.
  by intros [? ?].
Qed.

Lemma todos_settle_all (rs : list (Remote.FetchOutcome A)) s :
  Remote.todos (Remote.settle_all rs s) = Remote.todos s.
Proof.
  revert s. induction rs as [| r rs IH]; intros s; [done |].
  change (Remote.settle_all (r :: rs) s)
    with (Remote.settle_all rs (Remote.apiRequest_settle r s).1).
  rewrite IH. apply todos_apiRequest_settle.
Qed.

Lemma sent_settle_all (rs : list (Remote.FetchOutcome A)) s :
  Remote.sent (Remote.settle_all rs s) = Remote.sent s.
Proof.
  revert s. induction rs as [| r rs IH]; intros s; [done |].
  change (Remote.settle_all (r :: rs) s)
    with (Remote.settle_all rs (Remote.apiRequest_settle r s).1).
  rewrite IH. apply sent_apiRequest_settle.
Qed.
End Client.

Lemma remote_set_completed_id (t : Remote.Todo) b :
  Remote.completed t = b -> Remote.set_completed b t = t.
Proof. intros <-. by destruct t. Qed.

(** ** Rollback *)

(** C1.  When the collection holds a record with id [id0] whose
    [completed] is [b] and the update request of [toggleTodo id0] fails,
    the collection after the call is the collection before it, so that
    record's [completed] is [b]; the only request sent is the [PUT] of
    the toggle itself (the collection is not fetched again). *)
Theorem toggleTodo_rollback_exact
    (s : Remote.State) (id0 : Z) (r : Remote.FetchOutcome (option Remote.Updated))
    (i : nat) (t : Remote.Todo) (b : bool) :
  Remote.todos s !! i = Some t ->
  Remote.id t = id0 ->
  Remote.completed t = b ->
  Remote.fails r ->
  Remote.todos (Remote.toggleTodo id0 r s) = Remote.todos s
  ∧ Remote.completed <$> Remote.todos (Remote.toggleTodo id0 r s) !! i = Some b
  ∧ exists sent_body,
      Remote.sent (Remote.toggleTodo id0 r s)
      = Remote.sent s
        ++ [Remote.mkSent (Remote.API_BASE_URL ++ Remote.todo_endpoint id0)%string
              (Some (Remote.fetch_init
                       (Remote.mkInit (Some "PUT") (Some sent_body) None)))].
Proof.
  intros Hi Hid Hb [err Hfail].
  assert (Hin : t ∈ Remote.todos s) by (apply list_elem_of_lookup; eauto).
  unfold Remote.toggleTodo.
  destruct (JsArray.find _ (Remote.todos s)) as [[i' todo] |] eqn:Hfind.
  - apply js_find_Some in Hfind as (Hl & _ & _).
    rewrite (apiRequest_rejected _ _ _ _ _ Hfail). cbn.
    assert (Hback :
      <[i' := Remote.set_completed (Remote.completed todo)
                (Remote.set_completed (negb (Remote.completed todo)) todo)]>
        (<[i' := Remote.set_completed (negb (Remote.completed todo)) todo]>
           (Remote.todos s)) = Remote.todos s).
    { rewrite list_insert_insert_eq. apply list_insert_id.
      rewrite Hl. by destruct todo. }
    rewrite Hback. split; [done |]. split.
    + rewrite Hi. cbn. by rewrite Hb.
    + eexists. reflexivity.
  - pose proof (js_find_None _ _ _ Hfind Hin) as Hno. cbn in Hno.
    apply Z.eqb_neq in Hno. done.
Qed.

Lemma toggleTodo_rollback_exact_witness :
  let t := Remote.mkTodo 1 "Buy milk" false None (Some false) in
  let s := Remote.set_todos [t] Remote.initial in
  let r : Remote.FetchOutcome (option Remote.Updated) :=
    Remote.Rejected (Remote.mkError true "Failed to fetch") in
  Remote.todos (Remote.toggleTodo 1 r s) = [t]
  ∧ Remote.completed <$> Remote.todos (Remote.toggleTodo 1 r s) !! 0%nat
    = Some false.
Proof.
  cbv zeta.
  pose proof (toggleTodo_rollback_exact
    (Remote.set_todos [Remote.mkTodo 1 "Buy milk" false None (Some false)]
       Remote.initial)
    1 (Remote.Rejected (Remote.mkError true "Failed to fetch"))
    0%nat (Remote.mkTodo 1 "Buy milk" false None (Some false)) false
    eq_refl eq_refl eq_refl
    (ex_intro _ (Remote.mkError true "Failed to fetch") eq_refl)) as H.
  exact (conj (proj1 H) (proj1 (proj2 H))).
Defined.

(** C2, as amended.  When the record at position [i] is the only one of
    the collection with id [id0] and the deletion request of
    [deleteTodo id0] fails, the collection after the call is the
    collection before it: the record is back at position [i]. *)
Theorem deleteTodo_rollback_exact
    (s : Remote.State) (id0 : Z) (r : Remote.FetchOutcome unit)
    (i : nat) (t : Remote.Todo) :
  Remote.todos s !! i = Some t ->
  Remote.id t = id0 ->
  (forall j t', Remote.todos s !! j = Some t' -> Remote.id t' = id0 -> j = i) ->
  Remote.fails r ->
  Remote.todos (Remote.deleteTodo id0 r s) = Remote.todos s
  ∧ Remote.todos (Remote.deleteTodo id0 r s) !! i = Some t.
Proof.
  intros Hi Hid Huniq [err Hfail].
  assert (Hin : t ∈ Remote.todos s) by (apply list_elem_of_lookup; eauto).
  enough (Remote.todos (Remote.deleteTodo id0 r s) = Remote.todos s) as ->
    by done.
  unfold Remote.deleteTodo.
  destruct (JsArray.find _ (Remote.todos s)) as [[todoIndex todoBackup] |]
    eqn:Hfind.
  - apply js_find_Some in Hfind as (Hl & Hp & _). cbn in Hp.
    apply Z.eqb_eq in Hp.
    assert (todoIndex = i) as -> by eauto.
    rewrite (apiRequest_rejected _ _ _ _ _ Hfail). cbn.
    apply js_splice_after_filter; [done | |].
    + apply negb_false_iff, Z.eqb_eq. done.
    + intros j y Hj Hy. apply negb_false_iff, Z.eqb_eq in Hy. eauto.
  - pose proof (js_find_None _ _ _ Hfind Hin) as Hno. cbn in Hno.
    apply Z.eqb_neq in Hno. done.
Qed.

(** P4 of the specification: deleting [B] from [[A; B; C]] with a failing
    request gives [[A; B; C]] back. *)
Lemma deleteTodo_rollback_exact_witness :
  let a := Remote.mkTodo 1 "A" false None (Some false) in
  let b := Remote.mkTodo 2 "B" true None (Some false) in
  let c := Remote.mkTodo 3 "C" false None (Some false) in
  let s := Remote.set_todos [a; b; c] Remote.initial in
  let r : Remote.FetchOutcome unit :=
    Remote.Rejected (Remote.mkError true "Failed to fetch") in
  Remote.todos (Remote.deleteTodo 2 r s) = [a; b; c].
Proof.
  cbv zeta.
  refine (proj1 (deleteTodo_rollback_exact
    (Remote.set_todos
       [Remote.mkTodo 1 "A" false None (Some false);
        Remote.mkTodo 2 "B" true None (Some false);
        Remote.mkTodo 3 "C" false None (Some false)] Remote.initial)
    2 (Remote.Rejected (Remote.mkError true "Failed to fetch"))
    1%nat (Remote.mkTodo 2 "B" true None (Some false))
    eq_refl eq_refl _
    (ex_intro _ (Remote.mkError true "Failed to fetch") eq_refl))).
  intros [| [| [| j]]] t' Hj Hid; cbn in Hj; simplify_eq; cbn in Hid;
    first [done | discriminate].
Defined.

(** C2 as stated fails when two records share an id: [filter] takes both
    out and [splice] puts one back. *)
Lemma deleteTodo_rollback_shared_id :
  let a := Remote.mkTodo 1 "A" false None (Some false) in
  let a' := Remote.mkTodo 1 "A again" false None (Some false) in
  let s := Remote.set_todos [a; a'] Remote.initial in
  let r : Remote.FetchOutcome unit :=
    Remote.Rejected (Remote.mkError true "Failed to fetch") in
  Remote.todos s !! 0%nat = Some a
  ∧ Remote.id a = 1%Z
  ∧ Remote.fails r
  ∧ Remote.todos (Remote.deleteTodo 1 r s) = [a]
  ∧ Remote.todos (Remote.deleteTodo 1 r s) ≠ Remote.todos s.
Proof.
  cbv zeta. split; [reflexivity |]. split; [reflexivity |].
  split; [by eexists |].
  split; [reflexivity | discriminate].
Qed.

(** ** Bulk clear *)

Lemma todos_apiRequest_send endpoint options s :
  Remote.todos (Remote.apiRequest_send endpoint options s) = Remote.todos s.
Proof. reflexivity. Qed.

Lemma todos_send_batch (l : list Remote.Todo) s :
  Remote.todos
    (foldl (fun s todo =>
              Remote.apiRequest_send (Remote.todo_endpoint (Remote.id todo))
                (Remote.mkInit (Some "DELETE") None None) s) s l)
  = Remote.todos s.
Proof. revert s. induction l as [| t l IH]; intros s; [done |]. cbn. by rewrite IH. Qed.

Lemma sent_send_batch (l : list Remote.Todo) s :
  Remote.sent
    (foldl (fun s todo =>
              Remote.apiRequest_send (Remote.todo_endpoint (Remote.id todo))
                (Remote.mkInit (Some "DELETE") None None) s) s l)
  = Remote.sent s
    ++ ((fun todo =>
           Remote.mkSent
             (Remote.API_BASE_URL ++ Remote.todo_endpoint (Remote.id todo))%string
             (Some (Remote.fetch_init (Remote.mkInit (Some "DELETE") None None))))
        <$> l).
Proof.
  revert s. induction l as [| t l IH]; intros s.
  - cbn. by rewrite app_nil_r.
  - cbn [foldl fmap list_fmap]. rewrite IH. cbn. by rewrite <- app_assoc.
Qed.

(** What [fetchTodos] leaves in [todos.value] depends on the response and
    on the collection before the call only. *)
Lemma todos_fetchTodos_settle r s s' :
  Remote.todos s = Remote.todos s' ->
  Remote.todos (Remote.fetchTodos_settle r s)
  = Remote.todos (Remote.fetchTodos_settle r s').
Proof.
  intros H. unfold Remote.fetchTodos_settle, Remote.apiRequest_settle.
  destruct (Remote.apiRequest_try r) as [err | data]; cbn; [done |].
  by destruct (Remote.todoArray data).
Qed.

Lemma sent_fetchTodos_settle r s :
  Remote.sent (Remote.fetchTodos_settle r s) = Remote.sent s.
Proof.
  unfold Remote.fetchTodos_settle, Remote.apiRequest_settle.
  destruct (Remote.apiRequest_try r) as [err | data]; cbn; [done |].
  by destruct (Remote.todoArray data).
Qed.

(** C3.  When one of the deletion requests of [clearCompleted] fails,
    whichever it is and whatever the others did, the collection after the
    call is the one [fetchTodos] leaves when run on the collection as it
    was before the call (nothing was removed locally), and the requests
    sent are the deletions followed by the [GET /todos] of [fetchTodos]. *)
Theorem clearCompleted_failure_refetches
    (settles : nat -> Remote.FetchOutcome unit) (k : nat)
    (r : Remote.FetchOutcome Remote.TodosPayload) (s : Remote.State) (n : nat) :
  n < length (JsArray.filter (fun t => Remote.completed t) (Remote.todos s)) ->
  Remote.fails (settles n) ->
  Remote.todos (Remote.clearCompleted settles k r s)
  = Remote.todos (Remote.fetchTodos r s)
  ∧ exists deletions,
      length deletions
      = length (JsArray.filter (fun t => Remote.completed t) (Remote.todos s))
      ∧ Remote.sent (Remote.clearCompleted settles k r s)
        = Remote.sent s ++ deletions
          ++ [Remote.mkSent (Remote.API_BASE_URL ++ "/todos")%string
                (Some (Remote.fetch_init Remote.no_options))].
Proof.
  intros Hn Hfail. unfold Remote.clearCompleted.
  set (completedTodos := JsArray.filter _ (Remote.todos s)) in *.
  set (batch := foldl _ s completedTodos).
  destruct (JsArray.find Remote.failsb _) as [[j rejected] |] eqn:Hfind.
  - split.
    + rewrite todos_settle_all.
      unfold Remote.fetchTodos.
      apply todos_fetchTodos_settle.
      rewrite todos_settle_all. cbn.
      rewrite todos_apiRequest_settle. apply todos_send_batch.
    + eexists. split; [| rewrite sent_settle_all, sent_fetchTodos_settle,
                          sent_settle_all; cbn;
                          rewrite sent_apiRequest_settle; unfold batch;
                          rewrite sent_send_batch, <- app_assoc; reflexivity].
      by rewrite length_fmap.
  - exfalso.
    assert (Hin : settles n ∈ settles <$> seq 0 (length completedTodos)).
    { apply list_elem_of_fmap. exists n. split; [done |].
      apply elem_of_seq. lia. }
    pose proof (js_find_None _ _ _ Hfind Hin) as Hno.
    apply failsb_fails in Hfail. congruence.
Qed.

(** Scenario C of the specification: two records, the first completed;
    its deletion fails and the server answers the reload with both. *)
Lemma clearCompleted_failure_refetches_witness :
  let s := Remote.set_todos
             [Remote.mkTodo 1 "a" true None (Some false);
              Remote.mkTodo 2 "b" false None (Some false)] Remote.initial in
  let down : Remote.FetchOutcome unit :=
    Remote.Fulfilled (Remote.mkResponse false 500 None
                        (Remote.Fulfilled "boom") (Remote.Fulfilled tt)) in
  let reload : Remote.FetchOutcome Remote.TodosPayload :=
    Remote.Fulfilled
      (Remote.mkResponse true 200 (Some "application/json")
         (Remote.Fulfilled "")
         (Remote.Fulfilled
            (Remote.PArray
               [Remote.mkRaw 1 (Some "a") None (Some (JBool true)) None;
                Remote.mkRaw 2 (Some "b") None (Some (JBool false)) None]))) in
  Remote.todos (Remote.clearCompleted (fun _ => down) 0 reload s)
  = Remote.todos (Remote.fetchTodos reload s).
Proof.
  cbv zeta.
  refine (proj1 (clearCompleted_failure_refetches _ 0 _ _ 0 _ _)).
  - vm_compute. lia.
  - by eexists.
Defined.

(** ** Request headers *)

Lemma fetch_init_headers_absent (options : Remote.RequestInit) :
  Remote.headers options = None ->
  Remote.headers (Remote.fetch_init options)
  = Some {[ "Content-Type" := "application/json" ]}.
Proof.
  intros H. unfold Remote.fetch_init, Remote.spread_init, Remote.default_headers.
  cbn. rewrite H. cbn. f_equal; apply (left_id_L ∅ (∪)).
Qed.

(** The spread of [options] comes after the [headers] key of the literal:
    when [options] has headers of its own, they are what [fetch] gets. *)
Lemma fetch_init_headers_present (options : Remote.RequestInit) h :
  Remote.headers options = Some h ->
  Remote.headers (Remote.fetch_init options) = Some h.
Proof.
  intros H. unfold Remote.fetch_init, Remote.spread_init. cbn. by rewrite H.
Qed.

(** A call no function of the component makes: [apiRequest] with a header
    of the caller's own.  The merged object is built ([default_headers]
    has both entries) and then overwritten by the spread of [options], so
    such a request would go out with the caller's header only. *)
Remark apiRequest_loses_default_content_type :
  let options :=
    Remote.mkInit (Some "POST") None (Some {[ "X-Request-Id" := "42" ]}) in
  let s := Remote.apiRequest_send "/todos" options Remote.initial in
  Remote.default_headers options !! "Content-Type" = Some "application/json"
  ∧ Remote.sent s
    = [Remote.mkSent "http://localhost:8080/todos"
         (Some (Remote.mkInit (Some "POST") None
                  (Some {[ "X-Request-Id" := "42" ]})))]
  ∧ forall x i h,
      x ∈ Remote.sent s -> Remote.init x = Some i -> Remote.headers i = Some h ->
      h !! "Content-Type" = None.
Proof.
  cbv zeta. split; [| split].
  - unfold Remote.default_headers. cbn.
    apply lookup_union_Some_raw. right. split.
    + by apply lookup_singleton_ne.
    + apply lookup_singleton_eq.
  - reflexivity.
  - intros x i h Hx Hi Hh. cbn in Hx.
    apply list_elem_of_singleton in Hx. subst x. cbn in Hi.
    injection Hi as <-. cbn in Hh. injection Hh as <-.
    by apply lookup_singleton_ne.
Qed.

(** ** Normalisation on load *)

Lemma or_empty_or_else_title (todo : Remote.RawTodo) x :
  Remote.raw_title todo = Some x -> x ≠ "" ->
  Remote.title (Remote.normalize todo) = x.
Proof.
  intros H Hx. cbn. rewrite H. cbn.
  destruct (JsString.truthy x) eqn:Ht.
  - cbn. by rewrite Ht.
  - unfold JsString.truthy in Ht. apply negb_false_iff, String.eqb_eq in Ht.
    done.
Qed.

Lemma or_empty_or_else_text (todo : Remote.RawTodo) :
  Spec.blank (Remote.raw_title todo) ->
  Remote.title (Remote.normalize todo) = default "" (Remote.raw_text todo).
Proof.
  intros [H | H]; cbn; rewrite H; cbn.
  - destruct (Remote.raw_text todo) as [y |]; cbn; [| done].
    destruct (JsString.truthy y) eqn:Ht; [done |].
    unfold JsString.truthy in Ht. apply negb_false_iff, String.eqb_eq in Ht.
    done.
  - destruct (Remote.raw_text todo) as [y |]; cbn; [| done].
    destruct (JsString.truthy y) eqn:Ht; [done |].
    unfold JsString.truthy in Ht. apply negb_false_iff, String.eqb_eq in Ht.
    done.
Qed.

Lemma todos_fetchTodos_loaded r s data arr :
  Remote.apiRequest_try r = Remote.Fulfilled data ->
  Remote.todoArray data = Some arr ->
  Remote.todos (Remote.fetchTodos r s) = Remote.normalize <$> arr.
Proof.
  intros Hr Harr.
  unfold Remote.fetchTodos, Remote.fetchTodos_settle, Remote.apiRequest_settle.
  rewrite Hr. cbn. by rewrite Harr.
Qed.

Lemma todos_fetchTodos_cases r s :
  Remote.todos (Remote.fetchTodos r s) = Remote.todos s
  ∨ exists data arr,
      Remote.apiRequest_try r = Remote.Fulfilled data
      ∧ Remote.todoArray data = Some arr
      ∧ Remote.todos (Remote.fetchTodos r s) = Remote.normalize <$> arr.
Proof.
  destruct (Remote.apiRequest_try r) as [err | data] eqn:Hr.
  - left. unfold Remote.fetchTodos, Remote.fetchTodos_settle,
      Remote.apiRequest_settle. by rewrite Hr.
  - destruct (Remote.todoArray data) as [arr |] eqn:Harr.
    + right. exists data, arr. eauto using todos_fetchTodos_loaded.
    + left. unfold Remote.fetchTodos, Remote.fetchTodos_settle,
        Remote.apiRequest_settle. rewrite Hr. cbn. by rewrite Harr.
Qed.

(** C8, as amended.  When [GET /todos] succeeds with a list, the
    collection becomes the list of the normalised items, in order, and
    for every raw item: the record's title is the raw [title] when that
    is present and not empty; otherwise it is the raw [text] when that is
    present, and the empty string when it is not; [completed] is the
    boolean coercion of the raw [completed]; [isEditing] is false. *)
Theorem fetchTodos_normalizes
    (r : Remote.FetchOutcome Remote.TodosPayload) (s : Remote.State)
    (data : Remote.TodosPayload) (arr : list Remote.RawTodo) :
  Remote.apiRequest_try r = Remote.Fulfilled data ->
  Remote.todoArray data = Some arr ->
  Remote.todos (Remote.fetchTodos r s) = Remote.normalize <$> arr
  ∧ forall todo, todo ∈ arr ->
      (forall x, Remote.raw_title todo = Some x -> x ≠ "" ->
                 Remote.title (Remote.normalize todo) = x)
      ∧ (Spec.blank (Remote.raw_title todo) ->
         forall y, Remote.raw_text todo = Some y ->
                   Remote.title (Remote.normalize todo) = y)
      ∧ (Spec.blank (Remote.raw_title todo) ->
         Remote.raw_text todo = None ->
         Remote.title (Remote.normalize todo) = "")
      ∧ Remote.completed (Remote.normalize todo)
        = JsonValue.truthy (Remote.raw_completed todo)
      ∧ Remote.isEditing (Remote.normalize todo) = Some false.
Proof.
  intros Hr Harr. split; [by eapply todos_fetchTodos_loaded |].
  intros todo _. repeat split.
  - apply or_empty_or_else_title.
  - intros Hb y Hy. rewrite (or_empty_or_else_text _ Hb), Hy. done.
  - intros Hb Hy. rewrite (or_empty_or_else_text _ Hb), Hy. done.
Qed.

(** P6 of the specification: the raw item [{id: 1, text: "x", completed:
    false}] loads as a record titled ["x"]. *)
Lemma fetchTodos_normalizes_witness :
  let legacy := Remote.mkRaw 1 None (Some "x") (Some (JBool false)) None in
  let r : Remote.FetchOutcome Remote.TodosPayload :=
    Remote.Fulfilled
      (Remote.mkResponse true 200 (Some "application/json; charset=utf-8")
         (Remote.Fulfilled "") (Remote.Fulfilled (Remote.PArray [legacy]))) in
  Remote.todos (Remote.fetchTodos r Remote.initial)
  = [Remote.mkTodo 1 "x" false None (Some false)]
  ∧ Remote.title (Remote.normalize legacy) = "x".
Proof.
  cbv zeta.
  pose proof (fetchTodos_normalizes
    (Remote.Fulfilled
      (Remote.mkResponse true 200 (Some "application/json; charset=utf-8")
         (Remote.Fulfilled "")
         (Remote.Fulfilled
            (Remote.PArray
               [Remote.mkRaw 1 None (Some "x") (Some (JBool false)) None]))))
    Remote.initial
    (Remote.PArray [Remote.mkRaw 1 None (Some "x") (Some (JBool false)) None])
    [Remote.mkRaw 1 None (Some "x") (Some (JBool false)) None]
    eq_refl eq_refl) as [Hload Hitem].
  split; [exact Hload |].
  refine (proj1 (proj2
    (Hitem (Remote.mkRaw 1 None (Some "x") (Some (JBool false)) None) _))
    (or_introl eq_refl) "x" eq_refl).
  apply list_elem_of_singleton. reflexivity.
Defined.

(** C8 as stated fails on a raw item whose [title] is present and empty
    while its [text] is not: the record takes the text. *)
Lemma fetchTodos_empty_title_takes_text :
  let raw := Remote.mkRaw 1 (Some "") (Some "x") (Some (JBool false)) None in
  Remote.raw_title raw = Some ""
  ∧ Spec.spec_title raw = ""
  ∧ Remote.title (Remote.normalize raw) = "x"
  ∧ Remote.title (Remote.normalize raw) ≠ Spec.spec_title raw.
Proof. cbv zeta. repeat split; discriminate. Qed.

(** ** The editing flag *)

Lemma clean_plain_fetch u : Spec.clean (Remote.mkSent u None).
Proof. intros (i & b & Hi & _). discriminate. Qed.

Lemma clean_no_body u m h :
  Spec.clean
    (Remote.mkSent u (Some (Remote.fetch_init (Remote.mkInit m None h)))).
Proof. intros (i & b & Hi & Hb & _). cbn in Hi. by simplify_eq. Qed.

Lemma clean_post_body u m h x :
  Spec.clean (Remote.mkSent u
           (Some (Remote.fetch_init
                    (Remote.mkInit m (Some (JObj [("title", JStr x)])) h)))).
Proof.
  intros (i & b & Hi & Hb & Hk). cbn in Hi. simplify_eq.
  cbn in Hb. simplify_eq. cbn in Hk.
  repeat (apply elem_of_cons in Hk as [Hk | Hk]; [discriminate |]).
  by apply elem_of_nil in Hk.
Qed.

Lemma clean_put_body u m h todo :
  Spec.clean (Remote.mkSent u
           (Some (Remote.fetch_init
                    (Remote.mkInit m (Some (Remote.put_body todo)) h)))).
Proof.
  intros (i & b & Hi & Hb & Hk). cbn in Hi. simplify_eq.
  cbn in Hb. simplify_eq. cbn in Hk.
  repeat (apply elem_of_cons in Hk as [Hk | Hk]; [discriminate |]).
  by apply elem_of_nil in Hk.
Qed.

Lemma sent_apiRequest {A} endpoint options (r : Remote.FetchOutcome A) s :
  Remote.sent (Remote.apiRequest endpoint options r s).1
  = Remote.sent s
    ++ [Remote.mkSent (Remote.API_BASE_URL ++ endpoint)%string
          (Some (Remote.fetch_init options))].
Proof.
  unfold Remote.apiRequest. by rewrite sent_apiRequest_settle.
Qed.

Lemma sent_fetchTodos r s :
  Remote.sent (Remote.fetchTodos r s)
  = Remote.sent s
    ++ [Remote.mkSent (Remote.API_BASE_URL ++ "/todos")%string
          (Some (Remote.fetch_init Remote.no_options))].
Proof. unfold Remote.fetchTodos. by rewrite sent_fetchTodos_settle. Qed.

(** Every operation only adds requests, and the ones it adds do not
    carry the flag. *)
Lemma sent_run_clean (o : Remote.Op) (s : Remote.State) :
  exists new,
    Remote.sent (Remote.run o s) = Remote.sent s ++ new
    ∧ Forall Spec.clean new.
Proof.
  assert (Hnone : exists new,
            Remote.sent s = Remote.sent s ++ new ∧ Forall Spec.clean new).
  { exists []. by rewrite app_nil_r. }
  destruct o; cbn [Remote.run]; try exact Hnone.
  - (* Mounted *)
    unfold Remote.onMounted, Remote.testConnection.
    repeat case_match; simplify_eq; rewrite ?sent_fetchTodos; cbn;
      rewrite <- ?app_assoc; eexists; (split; [reflexivity |]);
      repeat constructor;
      first [apply clean_plain_fetch | apply clean_no_body].
  - (* RetryConnection *)
    unfold Remote.retryConnection. rewrite sent_fetchTodos.
    eexists. split; [reflexivity |]. repeat constructor. apply clean_no_body.
  - (* AddTodo *)
    unfold Remote.addTodo. case_match; [exact Hnone |].
    destruct (Remote.apiRequest _ _ _ _) as [s' res] eqn:Hreq.
    match type of Hreq with
    | Remote.apiRequest ?e ?o ?r ?s0 = _ =>
        pose proof (sent_apiRequest e o r s0) as Hs
    end.
    rewrite Hreq in Hs. cbn in Hs.
    eexists. split.
    + destruct res as [err | [d |]]; cbn; exact Hs.
    + repeat constructor. apply clean_post_body.
  - (* ToggleTodo *)
    unfold Remote.toggleTodo.
    destruct (JsArray.find _ _) as [[i todo] |]; [| exact Hnone].
    destruct (Remote.apiRequest _ _ _ _) as [s' res] eqn:Hreq.
    match type of Hreq with
    | Remote.apiRequest ?e ?o ?r ?s0 = _ =>
        pose proof (sent_apiRequest e o r s0) as Hs
    end.
    rewrite Hreq in Hs. cbn in Hs.
    eexists. split.
    + destruct res as [err | [d |]]; cbn; exact Hs.
    + repeat constructor. apply clean_put_body.
  - (* DeleteTodo *)
    unfold Remote.deleteTodo.
    destruct (JsArray.find _ _) as [[i todo] |]; [| exact Hnone].
    destruct (Remote.apiRequest _ _ _ _) as [s' res] eqn:Hreq.
    match type of Hreq with
    | Remote.apiRequest ?e ?o ?r ?s0 = _ =>
        pose proof (sent_apiRequest e o r s0) as Hs
    end.
    rewrite Hreq in Hs. cbn in Hs.
    eexists. split.
    + destruct res as [err | d]; cbn; exact Hs.
    + repeat constructor. apply clean_no_body.
  - (* ClearCompleted *)
    unfold Remote.clearCompleted.
    set (completedTodos := JsArray.filter _ (Remote.todos s)).
    assert (Hbatch : Forall Spec.clean
      ((fun todo =>
          Remote.mkSent
            (Remote.API_BASE_URL ++ Remote.todo_endpoint (Remote.id todo))%string
            (Some (Remote.fetch_init (Remote.mkInit (Some "DELETE") None None))))
       <$> completedTodos)).
    { apply Forall_fmap, Forall_forall. intros t _. apply clean_no_body. }
    destruct (JsArray.find Remote.failsb _) as [[j rejected] |].
    + rewrite sent_settle_all, sent_fetchTodos_settle, sent_settle_all. cbn.
      rewrite sent_apiRequest_settle, sent_send_batch, <- app_assoc.
      eexists. split; [reflexivity |].
      apply Forall_app. split; [exact Hbatch |].
      repeat constructor. apply clean_no_body.
    + cbn. rewrite sent_send_batch. eauto.
  - (* StartEditing *)
    unfold Remote.startEditing. case_match; exact Hnone.
  - (* SaveEdit *)
    unfold Remote.saveEdit.
    destruct (Remote.todos s !! i) as [todo |]; [| exact Hnone].
    case_match.
    { unfold Remote.cancelEdit. case_match; exact Hnone. }
    destruct (Remote.apiRequest _ _ _ _) as [s' res] eqn:Hreq.
    match type of Hreq with
    | Remote.apiRequest ?e ?o ?r ?s0 = _ =>
        pose proof (sent_apiRequest e o r s0) as Hs
    end.
    rewrite Hreq in Hs. cbn in Hs.
    eexists. split.
    + destruct res as [err | [d |]]; cbn; exact Hs.
    + repeat constructor. apply clean_put_body.
  - (* CancelEdit *)
    unfold Remote.cancelEdit. case_match; exact Hnone.
Qed.

Lemma sent_run_all_clean (ops : list Remote.Op) (s : Remote.State) :
  Forall Spec.clean (Remote.sent s) ->
  Forall Spec.clean (Remote.sent (Remote.run_all ops s)).
Proof.
  revert s. induction ops as [| o ops IH]; intros s Hs; [done |].
  change (Remote.run_all (o :: ops) s)
    with (Remote.run_all ops (Remote.run o s)).
  apply IH. destruct (sent_run_clean o s) as (new & -> & Hnew).
  by apply Forall_app.
Qed.

Lemma parse_stringify_todo (t : Local.Todo) :
  Local.parse_todo (Local.stringify_todo t) = Some t.
Proof. destruct t as [i x c d [e |]]; reflexivity. Qed.

Lemma parse_stringify (l : list Local.Todo) :
  Local.parse (Local.stringify l) = Some l.
Proof.
  unfold Local.parse, Local.stringify.
  apply mapM_fmap_Some. exact parse_stringify_todo.
Qed.

Lemma getItem_saveTodos (s : Local.State) :
  Local.getItem (Local.saveTodos s) = Some (Local.stringify (Local.todos s)).
Proof. unfold Local.getItem, Local.saveTodos. cbn. apply last_snoc. Qed.

(** C6, as amended.  In the remote variant no request sent by any
    sequence of operations has a body with an [isEditing] key, and every
    record of the collection a successful load installs has [isEditing]
    false.  In the local variant [saveTodos] writes each record whole, so
    a record whose [isEditing] is set is stored with that key, and the
    mount hook of the next session restores the collection exactly as it
    was saved, the flags included. *)
Theorem isEditing_transient_in_remote_variant :
  (forall (ops : list Remote.Op) (x : Remote.Sent),
     x ∈ Remote.sent (Remote.run_all ops Remote.initial) ->
     ¬ Spec.sends_isEditing x)
  ∧ (forall (r : Remote.FetchOutcome Remote.TodosPayload) (s : Remote.State)
            data arr,
       Remote.apiRequest_try r = Remote.Fulfilled data ->
       Remote.todoArray data = Some arr ->
       forall t, t ∈ Remote.todos (Remote.fetchTodos r s) ->
                 Remote.isEditing t = Some false)
  ∧ (forall s : Local.State,
       Local.getItem (Local.saveTodos s)
       = Some (Local.stringify (Local.todos s))
       ∧ (forall t, t ∈ Local.todos s -> Local.isEditing t ≠ None ->
                    Spec.stores_isEditing (Local.stringify (Local.todos s)))
       ∧ Local.todos
           <$> Local.onMounted
                 (Local.initial (Local.storage (Local.saveTodos s)))
         = Some (Local.todos s)).
Proof.
  split; [| split].
  - intros ops x Hx.
    pose proof (sent_run_all_clean ops Remote.initial (Forall_nil_2 _)) as H.
    rewrite Forall_forall in H. by apply H.
  - intros r s data arr Hr Harr t Ht.
    rewrite (todos_fetchTodos_loaded _ _ _ _ Hr Harr) in Ht.
    apply list_elem_of_fmap in Ht as (raw & -> & _). reflexivity.
  - intros s. split; [apply getItem_saveTodos |]. split.
    + intros t Ht He. cbn. exists (Local.stringify_todo t). split.
      * apply list_elem_of_fmap. eauto.
      * destruct t as [i x c d [e |]]; [| done]. cbn.
        rewrite !elem_of_cons. do 4 right. by left.
    + unfold Local.onMounted.
      change (Local.getItem (Local.initial (Local.storage (Local.saveTodos s))))
        with (Local.getItem (Local.saveTodos s)).
      rewrite getItem_saveTodos, parse_stringify. reflexivity.
Qed.

Lemma isEditing_transient_in_remote_variant_witness :
  let r : Remote.FetchOutcome Remote.TodosPayload :=
    Remote.Fulfilled
      (Remote.mkResponse true 200 (Some "application/json")
         (Remote.Fulfilled "")
         (Remote.Fulfilled
            (Remote.PObject
               (Some [Remote.mkRaw 7 (Some "a") None None None])))) in
  let editing := Remote.mkTodo 7 "a" false None (Some true) in
  let s := Remote.set_todos [editing] Remote.initial in
  Forall (fun t => Remote.isEditing t = Some false)
         (Remote.todos (Remote.fetchTodos r s)).
Proof.
  cbv zeta. apply Forall_forall. intros t Ht.
  refine (proj1 (proj2 isEditing_transient_in_remote_variant)
            _ _ _ _ _ _ t Ht); reflexivity.
Defined.

(** C6 as stated fails in the local variant: a record being edited when
    another change is saved is stored with [isEditing: true], and the
    next session loads it with the flag still set. *)
Lemma isEditing_persisted_in_local_variant :
  let s := Local.run_all
             [Local.TypeNewTodo "a"; Local.AddTodo 1 1;
              Local.TypeNewTodo "b"; Local.AddTodo 2 2;
              Local.StartEditing 0; Local.ToggleTodo 1]
             (Local.initial []) in
  Local.getItem s
  = Some (JArr [JObj [("id", JNum 2); ("text", JStr "b");
                      ("completed", JBool false); ("createdAt", JNum 2);
                      ("isEditing", JBool true)];
                JObj [("id", JNum 1); ("text", JStr "a");
                      ("completed", JBool true); ("createdAt", JNum 1);
                      ("isEditing", JBool false)]])
  ∧ Local.todos <$> Local.onMounted (Local.initial (Local.storage s))
    = Some [Local.mkTodo 2 "b" false 2 (Some true);
            Local.mkTodo 1 "a" true 1 (Some false)].
Proof. cbv zeta. split; reflexivity. Qed.

(** ** Uniqueness of ids *)

Section Ids.
Context {T : Type} (key : T -> Z).
Implicit Types (l : list T) (t : T).

(** Rewriting a record in place, id untouched, keeps the list of ids. *)
Lemma ids_insert_same l i t t' :
  l !! i = Some t -> key t' = key t -> key <$> <[i := t']> l = key <$> l.
Proof.
  intros Hl Hk. rewrite list_fmap_insert, Hk.
  apply list_insert_id. by rewrite list_lookup_fmap, Hl.
Qed.

Lemma ids_filter_NoDup (p : T -> bool) l :
  NoDup (key <$> l) -> NoDup (key <$> JsArray.filter p l).
Proof.
  intros H. eapply sublist_NoDup; [exact H |].
  apply fmap_sublist, js_filter_sublist.
Qed.

Lemma ids_splice_NoDup l i t :
  NoDup (key <$> l) -> key t ∉ key <$> l ->
  NoDup (key <$> JsArray.splice_insert i t l).
Proof.
  intros Hl Ht. unfold JsArray.splice_insert.
  rewrite fmap_app, fmap_cons.
  rewrite <- Permutation_middle, <- fmap_app, take_drop.
  by apply NoDup_cons.
Qed.

Lemma ids_filter_out (z : Z) l :
  z ∉ key <$> JsArray.filter (fun t => negb (key t =? z)%Z) l.
Proof.
  intros (t & -> & Ht)%list_elem_of_fmap.
  apply js_filter_elem in Ht as [_ Ht].
  apply negb_true_iff, Z.eqb_neq in Ht. done.
Qed.
End Ids.

Lemma remote_ids_fetchTodos r s :
  NoDup (Spec.remote_ids s) -> Spec.distinct_payload r ->
  NoDup (Spec.remote_ids (Remote.fetchTodos r s)).
Proof.
  intros Hs Hr. unfold Spec.remote_ids in *.
  destruct (todos_fetchTodos_cases r s) as [-> | (data & arr & H1 & H2 & ->)];
    [done |].
  rewrite <- list_fmap_compose.
  exact (Hr data arr H1 H2).
Qed.

Lemma remote_ids_step (o : Remote.Op) (s : Remote.State) :
  NoDup (Spec.remote_ids s) -> Spec.remote_fresh o s ->
  NoDup (Spec.remote_ids (Remote.run o s)).
Proof.
  intros Hs Hfresh. destruct o; cbn [Remote.run Spec.remote_fresh] in *;
    try exact Hs.
  - (* Mounted *)
    unfold Remote.onMounted, Remote.testConnection.
    repeat case_match; simplify_eq; try exact Hs.
    by apply remote_ids_fetchTodos.
  - (* RetryConnection *)
    by apply remote_ids_fetchTodos.
  - (* AddTodo *)
    unfold Remote.addTodo. case_match; [exact Hs |].
    unfold Remote.apiRequest, Remote.apiRequest_settle.
    destruct (Remote.apiRequest_try r) as [err | [d |]] eqn:Hr; try exact Hs.
    unfold Spec.remote_ids. cbn. apply NoDup_cons. split; [| exact Hs].
    by apply Hfresh.
  - (* ToggleTodo *)
    unfold Remote.toggleTodo.
    destruct (JsArray.find _ _) as [[i todo] |] eqn:Hfind; [| exact Hs].
    apply js_find_Some in Hfind as (Hl & _ & _).
    unfold Remote.apiRequest, Remote.apiRequest_settle.
    destruct (Remote.apiRequest_try r) as [err | [d |]];
      unfold Spec.remote_ids in *; cbn;
      rewrite list_insert_insert_eq;
      by rewrite (ids_insert_same _ _ _ _ _ Hl).
  - (* DeleteTodo *)
    unfold Remote.deleteTodo.
    destruct (JsArray.find _ _) as [[i todo] |] eqn:Hfind; [| exact Hs].
    apply js_find_Some in Hfind as (Hl & Hp & _). cbn in Hp.
    apply Z.eqb_eq in Hp.
    unfold Remote.apiRequest, Remote.apiRequest_settle.
    destruct (Remote.apiRequest_try r) as [err | d];
      unfold Spec.remote_ids in *; cbn.
    + apply ids_splice_NoDup; [by apply ids_filter_NoDup |].
      rewrite Hp. apply ids_filter_out.
    + by apply ids_filter_NoDup.
  - (* ClearCompleted *)
    unfold Remote.clearCompleted, Spec.remote_ids in *.
    destruct (JsArray.find Remote.failsb _) as [[j rejected] |].
    + rewrite todos_settle_all.
      erewrite todos_fetchTodos_settle.
      * apply (remote_ids_fetchTodos r s Hs Hfresh).
      * rewrite todos_settle_all. cbn.
        rewrite todos_apiRequest_settle. apply todos_send_batch.
    + cbn. rewrite todos_send_batch. by apply ids_filter_NoDup.
  - (* StartEditing *)
    unfold Remote.startEditing, Spec.remote_ids in *.
    destruct (Remote.todos s !! i) as [todo |] eqn:Hl; [| exact Hs].
    cbn. by rewrite (ids_insert_same _ _ _ _ _ Hl).
  - (* SaveEdit *)
    unfold Remote.saveEdit, Remote.cancelEdit, Spec.remote_ids in *.
    destruct (Remote.todos s !! i) as [todo |] eqn:Hl; [| exact Hs].
    case_match.
    + cbn. by rewrite (ids_insert_same _ _ _ _ _ Hl).
    + unfold Remote.apiRequest, Remote.apiRequest_settle.
      destruct (Remote.apiRequest_try r) as [err | [d |]]; cbn;
        rewrite list_insert_insert_eq;
        by rewrite (ids_insert_same _ _ _ _ _ Hl).
  - (* CancelEdit *)
    unfold Remote.cancelEdit, Spec.remote_ids in *.
    destruct (Remote.todos s !! i) as [todo |] eqn:Hl; [| exact Hs].
    cbn. by rewrite (ids_insert_same _ _ _ _ _ Hl).
Qed.

Lemma local_ids_step (o : Local.Op) (s : Local.State) :
  NoDup (Spec.local_ids s) -> Spec.local_fresh o s ->
  NoDup (Spec.local_ids (Local.run o s)).
Proof.
  intros Hs Hfresh. destruct o; cbn [Local.run Spec.local_fresh] in *;
    unfold Spec.local_ids in *; try exact Hs.
  - (* AddTodo *)
    unfold Local.addTodo. case_match; [| exact Hs].
    cbn. apply NoDup_cons. by split.
  - (* ToggleTodo *)
    unfold Local.toggleTodo.
    destruct (JsArray.find _ _) as [[i todo] |] eqn:Hfind; [| exact Hs].
    apply js_find_Some in Hfind as (Hl & _ & _).
    cbn. by rewrite (ids_insert_same _ _ _ _ _ Hl).
  - (* DeleteTodo *)
    cbn. by apply ids_filter_NoDup.
  - (* ClearCompleted *)
    cbn. by apply ids_filter_NoDup.
  - (* StartEditing *)
    unfold Local.startEditing.
    destruct (Local.todos s !! i) as [todo |] eqn:Hl; [| exact Hs].
    cbn. by rewrite (ids_insert_same _ _ _ _ _ Hl).
  - (* SaveEdit *)
    unfold Local.saveEdit.
    destruct (Local.todos s !! i) as [todo |] eqn:Hl; [| exact Hs].
    case_match; [| exact Hs].
    cbn. by rewrite (ids_insert_same _ _ _ _ _ Hl).
  - (* CancelEdit *)
    unfold Local.cancelEdit.
    destruct (Local.todos s !! i) as [todo |] eqn:Hl; [| exact Hs].
    cbn. by rewrite (ids_insert_same _ _ _ _ _ Hl).
Qed.

(** C5, as amended.  Ids stay pairwise distinct along any sequence of
    operations that do not overlap ([run_all]: each runs from its request
    to its response before the next starts; the local variant is
    synchronous) as long as the environment never brings in an id the
    collection already has: in the remote variant every list the server
    returns has distinct ids and every created record has an id that is
    not in the collection; in the local variant every clock reading
    [addTodo] takes as id is not in the collection, and the stored list
    the mount hook installs has distinct ids. *)
Theorem ids_unique_while_fresh :
  (forall (ops : list Remote.Op) (s : Remote.State),
     NoDup (Spec.remote_ids s) -> Spec.remote_fresh_all ops s ->
     NoDup (Spec.remote_ids (Remote.run_all ops s)))
  ∧ (forall (ops : list Local.Op) (s : Local.State),
       NoDup (Spec.local_ids s) -> Spec.local_fresh_all ops s ->
       NoDup (Spec.local_ids (Local.run_all ops s)))
  ∧ (forall (s s' : Local.State),
       Local.onMounted s = Some s' ->
       NoDup (Spec.local_ids s) ->
       (forall v l, Local.getItem s = Some v -> Local.parse v = Some l ->
                    NoDup (Local.id <$> l)) ->
       NoDup (Spec.local_ids s')).
Proof.
  split; [| split].
  - induction ops as [| o ops IH]; intros s Hs Hf; [done |].
    destruct Hf as [Ho Hops].
    change (Remote.run_all (o :: ops) s)
      with (Remote.run_all ops (Remote.run o s)).
    apply IH; [by apply remote_ids_step | done].
  - induction ops as [| o ops IH]; intros s Hs Hf; [done |].
    destruct Hf as [Ho Hops].
    change (Local.run_all (o :: ops) s)
      with (Local.run_all ops (Local.run o s)).
    apply IH; [by apply local_ids_step | done].
  - intros s s' Hm Hs Hstored. unfold Local.onMounted in Hm.
    destruct (Local.getItem s) as [v |] eqn:Hv; [| by simplify_eq].
    destruct (Local.parse v) as [l |] eqn:Hp; [| done].
    simplify_eq. unfold Spec.local_ids. cbn. eauto.
Qed.

Lemma ids_unique_while_fresh_witness :
  let created (n : Z) (x : string) : Remote.FetchOutcome (option Remote.Created) :=
    Remote.Fulfilled
      (Remote.mkResponse true 201 (Some "application/json")
         (Remote.Fulfilled "")
         (Remote.Fulfilled (Some (Remote.mkCreated n x None None)))) in
  NoDup (Spec.remote_ids
           (Remote.run_all
              [Remote.TypeNewTodo "a"; Remote.AddTodo (created 1%Z "a");
               Remote.TypeNewTodo "b"; Remote.AddTodo (created 2%Z "b");
               Remote.DeleteTodo 1
                 (Remote.Rejected (Remote.mkError true "Failed to fetch"))]
              Remote.initial))
  ∧ NoDup (Spec.local_ids
             (Local.run_all
                [Local.TypeNewTodo "a"; Local.AddTodo 10 10;
                 Local.TypeNewTodo "b"; Local.AddTodo 11 11;
                 Local.ToggleTodo 10]
                (Local.initial []))).
Proof.
  cbv zeta. split.
  - apply (proj1 ids_unique_while_fresh).
    + apply NoDup_nil_2.
    + cbn. repeat split; intros d Hd; injection Hd as <-; compute_done.
  - apply (proj1 (proj2 ids_unique_while_fresh)).
    + apply NoDup_nil_2.
    + cbn. repeat split; compute_done.
Defined.

(** C5 as stated fails in both variants: nothing in either component
    compares a new id with the ids it holds.  Locally two records added
    at the same clock reading share their id; remotely a created record
    takes whatever id the server answers with. *)
Lemma ids_repeat_without_freshness :
  let created (x : string) : Remote.FetchOutcome (option Remote.Created) :=
    Remote.Fulfilled
      (Remote.mkResponse true 201 (Some "application/json")
         (Remote.Fulfilled "")
         (Remote.Fulfilled (Some (Remote.mkCreated 1 x None None)))) in
  Spec.local_ids
    (Local.run_all
       [Local.TypeNewTodo "a"; Local.AddTodo 5 5;
        Local.TypeNewTodo "b"; Local.AddTodo 5 5]
       (Local.initial [])) = [5; 5]%Z
  ∧ ¬ NoDup (Spec.local_ids
               (Local.run_all
                  [Local.TypeNewTodo "a"; Local.AddTodo 5 5;
                   Local.TypeNewTodo "b"; Local.AddTodo 5 5]
                  (Local.initial [])))
  ∧ Spec.remote_ids
      (Remote.run_all
         [Remote.TypeNewTodo "a"; Remote.AddTodo (created "a");
          Remote.TypeNewTodo "b"; Remote.AddTodo (created "b")]
         Remote.initial) = [1; 1]%Z
  ∧ ¬ NoDup (Spec.remote_ids
               (Remote.run_all
                  [Remote.TypeNewTodo "a"; Remote.AddTodo (created "a");
                   Remote.TypeNewTodo "b"; Remote.AddTodo (created "b")]
                  Remote.initial)).
Proof.
  cbv zeta.
  assert (Hdup : ¬ NoDup [5; 5]%Z).
  { intros H. apply NoDup_cons in H as [H _]. apply H, elem_of_cons. by left. }
  assert (Hdup1 : ¬ NoDup [1; 1]%Z).
  { intros H. apply NoDup_cons in H as [H _]. apply H, elem_of_cons. by left. }
  split; [reflexivity |]. split; [exact Hdup |].
  split; [reflexivity |]. exact Hdup1.
Qed.

(** * Further properties of the code *)

(** ** White space *)

Lemma chars_inj (a b : string) : Spec.chars a = Spec.chars b -> a = b.
Proof.
  unfold Spec.chars. intros H.
  rewrite <- (String.string_of_list_ascii_of_string a),
          <- (String.string_of_list_ascii_of_string b).
  by rewrite H.
Qed.

Lemma chars_rev_app (a b : string) :
  Spec.chars (String.rev_app a b) = reverse (Spec.chars a) ++ Spec.chars b.
Proof.
  revert b. induction a as [| c a IH]; intros b; [done |].
  change (String.rev_app (String c a) b)
    with (String.rev_app a (String c b)).
  rewrite IH.
  change (Spec.chars (String c b)) with (c :: Spec.chars b).
  change (Spec.chars (String c a)) with (c :: Spec.chars a).
  by rewrite reverse_cons, <- app_assoc.
Qed.

Lemma chars_rev (a : string) :
  Spec.chars (String.rev a) = reverse (Spec.chars a).
Proof. unfold String.rev. rewrite chars_rev_app. cbn. by rewrite app_nil_r. Qed.

Lemma chars_trimStart (a : string) :
  Spec.chars (JsString.trimStart a) = Spec.drop_white (Spec.chars a).
Proof.
  induction a as [| c a IH]; [done |].
  cbn. destruct (JsString.is_white c); [exact IH | done].
Qed.

Lemma chars_trim (a : string) :
  Spec.chars (JsString.trim a)
  = reverse (Spec.drop_white (reverse (Spec.drop_white (Spec.chars a)))).
Proof.
  unfold JsString.trim, JsString.trimEnd.
  by rewrite chars_rev, chars_trimStart, chars_rev, chars_trimStart.
Qed.

Lemma drop_white_head l c :
  head (Spec.drop_white l) = Some c -> JsString.is_white c = false.
Proof.
  induction l as [| a l IH]; [done |]. cbn.
  destruct (JsString.is_white a) eqn:Ha; [exact IH |].
  cbn. intros [= <-]. exact Ha.
Qed.

Lemma drop_white_fixed l :
  (forall c, head l = Some c -> JsString.is_white c = false) ->
  Spec.drop_white l = l.
Proof.
  destruct l as [| a l]; [done |]. intros H. cbn.
  by rewrite (H a eq_refl).
Qed.

Lemma drop_white_nil l :
  Spec.drop_white l = [] ↔ Forall (fun c => JsString.is_white c = true) l.
Proof.
  induction l as [| a l IH]; [by split; [constructor |] |]. cbn.
  destruct (JsString.is_white a) eqn:Ha.
  - rewrite IH. split; [by constructor |]. by inversion 1.
  - split; [done |]. inversion 1; congruence.
Qed.

Lemma drop_white_last l c :
  (forall c, last l = Some c -> JsString.is_white c = false) ->
  last (Spec.drop_white l) = Some c -> JsString.is_white c = false.
Proof.
  induction l as [| a l IH]; [done |]. intros Hl. cbn.
  destruct (JsString.is_white a) eqn:Ha; [| apply Hl].
  destruct l as [| b l]; [done |].
  apply IH. intros d Hd. apply Hl. exact Hd.
Qed.

Lemma trim_no_white_ends (a : string) : Spec.no_white_ends (JsString.trim a).
Proof.
  unfold Spec.no_white_ends. rewrite chars_trim.
  set (m := Spec.drop_white (Spec.chars a)). split.
  - intros c. rewrite head_reverse. apply drop_white_last.
    intros d. rewrite last_reverse. apply drop_white_head.
  - intros c. rewrite last_reverse. apply drop_white_head.
Qed.

Lemma no_white_ends_trim (a : string) :
  Spec.no_white_ends a -> JsString.trim a = a.
Proof.
  intros [Hh Hl]. apply chars_inj. rewrite chars_trim.
  rewrite (drop_white_fixed _ Hh).
  rewrite drop_white_fixed; [apply reverse_involutive |].
  intros c. rewrite head_reverse. apply Hl.
Qed.

(** [trim] gives the empty string exactly on the strings made of white
    space only; its result never starts or ends with white space; and
    trimming a second time changes nothing. *)
Theorem trim_characterised (a : string) :
  (JsString.trim a = ""
   ↔ Forall (fun c => JsString.is_white c = true) (Spec.chars a))
  ∧ Spec.no_white_ends (JsString.trim a)
  ∧ JsString.trim (JsString.trim a) = JsString.trim a.
Proof.
  split; [| split].
  - split.
    + intros H.
      assert (H' : Spec.chars (JsString.trim a) = []) by by rewrite H.
      rewrite chars_trim in H'. apply (f_equal reverse) in H'.
      rewrite reverse_involutive, reverse_nil in H'.
      apply drop_white_nil in H'. rewrite Forall_reverse in H'.
      clear H. rename H' into H.
      apply drop_white_nil.
      destruct (Spec.drop_white (Spec.chars a)) as [| c m] eqn:Hm; [done |].
      assert (Hc : JsString.is_white c = false).
      { apply (drop_white_head (Spec.chars a)). by rewrite Hm. }
      inversion H; congruence.
    + intros H. apply chars_inj. rewrite chars_trim.
      apply drop_white_nil in H. by rewrite H.
  - apply trim_no_white_ends.
  - apply no_white_ends_trim, trim_no_white_ends.
Qed.

(** ** The HTTP client *)

Lemma substring0_split (n : nat) (a : string) :
  exists rest,
    a = (JsString.substring0 n a ++ rest)%string
    ∧ String.length (JsString.substring0 n a) = n `min` String.length a.
Proof.
  unfold JsString.substring0. revert a.
  induction n as [| n IH]; intros a.
  - exists a. by destruct a.
  - destruct a as [| c a]; [by exists "" |].
    destruct (IH a) as (rest & Hr & Hl). exists rest. split.
    + change (String c a
              = String c (String.substring 0 n a ++ rest)%string).
      by rewrite <- Hr.
    + change (S (String.length (String.substring 0 n a))
              = S (n `min` String.length a)).
      by rewrite Hl.
Qed.

Lemma includes_empty (needle : string) :
  needle ≠ "" -> JsString.includes "" needle = false.
Proof. by destruct needle. Qed.

Lemma truthy_true (a : string) : JsString.truthy a = true ↔ a ≠ "".
Proof.
  unfold JsString.truthy. rewrite negb_true_iff.
  destruct (String.eqb_spec a ""); split; naive_solver.
Qed.


(** X3.  When the server answered and its body could be read as text,
    [apiRequest] fails in two ways.  On a status that is not [ok] it
    records the body as the error, or [HTTP error! status: <code>] when
    the body is empty.  On an [ok] answer whose content type is missing
    or does not contain [application/json] it records the fixed prefix
    followed by the first 100 characters of the body at most. *)
Theorem apiRequest_failure_reported {A : Type}
    (endpoint : string) (options : Remote.RequestInit)
    (response : Remote.Response A) (s : Remote.State) (text : string) :
  Remote.response_text response = Remote.Fulfilled text ->
  let after := (Remote.apiRequest endpoint options
                  (Remote.Fulfilled response) s).1 in
  (Remote.ok response = false ->
   Remote.fails (Remote.Fulfilled response)
   ∧ Remote.error after
     = if decide (text = "")
       then ("HTTP error! status: " ++ pretty (Remote.status response))%string
       else text)
  ∧ (Remote.ok response = true ->
     (forall contentType,
        Remote.content_type response = Some contentType ->
        JsString.includes contentType "application/json" = false) ->
     Remote.fails (Remote.Fulfilled response)
     ∧ exists preview rest,
         Remote.error after
         = ("Expected JSON response but received: " ++ preview)%string
         ∧ text = (preview ++ rest)%string
         ∧ String.length preview = 100 `min` String.length text).
Proof.
  intros Htext after. subst after.
  unfold Remote.apiRequest, Remote.apiRequest_settle, Remote.fails,
    Remote.apiRequest_try.
  split.
  - intros Hok. rewrite Hok, Htext. cbn. split; [eauto |].
    unfold Remote.apiRequest_catch. cbn.
    destruct (decide (text = "")) as [-> | Hne]; [done |].
    apply truthy_true in Hne. by rewrite Hne.
  - intros Hok Hct. rewrite Hok, Htext. cbn.
    assert (Hnot :
      match Remote.content_type response with
      | Some contentType =>
          JsString.truthy contentType
          && JsString.includes contentType "application/json"
      | None => false
      end = false).
    { destruct (Remote.content_type response) as [ct |]; [| done].
      rewrite (Hct ct eq_refl). apply andb_false_r. }
    rewrite Hnot. split; [eauto |].
    destruct (substring0_split 100 text) as (rest & Hsplit & Hlen).
    exists (JsString.substring0 100 text), rest. done.
Qed.

Lemma apiRequest_failure_reported_witness :
  let gone : Remote.Response unit :=
    Remote.mkResponse false 404 (Some "text/plain")
      (Remote.Fulfilled "") (Remote.Fulfilled tt) in
  let page : Remote.Response unit :=
    Remote.mkResponse true 200 (Some "text/html")
      (Remote.Fulfilled "<html>") (Remote.Fulfilled tt) in
  Remote.error
    (Remote.apiRequest "/todos/9" Remote.no_options
       (Remote.Fulfilled gone) Remote.initial).1
  = "HTTP error! status: 404"
  ∧ Remote.fails (Remote.Fulfilled page).
Proof.
  cbv zeta. split.
  - exact (proj2 (proj1 (apiRequest_failure_reported "/todos/9"
       Remote.no_options
       (Remote.mkResponse false 404 (Some "text/plain")
          (Remote.Fulfilled "") (Remote.Fulfilled tt))
       Remote.initial "" eq_refl) eq_refl)).
  - refine (proj1 (proj2 (apiRequest_failure_reported "/todos" Remote.no_options
       (Remote.mkResponse true 200 (Some "text/html")
          (Remote.Fulfilled "<html>") (Remote.Fulfilled tt))
       Remote.initial "<html>" eq_refl) eq_refl _)).
    intros ct [= <-]. reflexivity.
Defined.

(** ** Loading *)

(** X4.  A load whose request fails leaves the collection, the input
    field, the edit buffer and the filter as they were; it ends with
    [loading] false, sends exactly one [GET /todos], and [error.value]
    holds the message of that failure. *)
Theorem fetchTodos_failure_keeps_state
    (r : Remote.FetchOutcome Remote.TodosPayload) (s : Remote.State)
    (err : Remote.JsError) :
  Remote.apiRequest_try r = Remote.Rejected err ->
  Remote.fetchTodos r s
  = Remote.mkState (Remote.newTodo s) (Remote.todos s) (Remote.filter s)
      (Remote.editedTodoText s) (Remote.activeTab s) false
      (Remote.apiRequest_catch err)
      (Remote.sent s
       ++ [Remote.mkSent (Remote.API_BASE_URL ++ "/todos")%string
             (Some (Remote.fetch_init Remote.no_options))]).
Proof.
  intros Hr.
  unfold Remote.fetchTodos, Remote.fetchTodos_settle, Remote.apiRequest_settle.
  by rewrite Hr.
Qed.

Lemma fetchTodos_failure_keeps_state_witness :
  let s := Remote.set_todos [Remote.mkTodo 1 "a" true None (Some true)]
             (Remote.set_newTodo "draft" Remote.initial) in
  let r : Remote.FetchOutcome Remote.TodosPayload :=
    Remote.Rejected (Remote.mkError true "Failed to fetch") in
  Remote.todos (Remote.fetchTodos r s)
  = [Remote.mkTodo 1 "a" true None (Some true)]
  ∧ Remote.loading (Remote.fetchTodos r s) = false
  ∧ Remote.error (Remote.fetchTodos r s)
    = "Cannot connect to server. Make sure the backend is running on http://localhost:8080".
Proof.
  cbv zeta.
  rewrite (fetchTodos_failure_keeps_state
             (Remote.Rejected (Remote.mkError true "Failed to fetch"))
             _ (Remote.mkError true "Failed to fetch") eq_refl).
  repeat split.
Defined.

(** X5.  What a successful [GET /todos] does to the collection, by the
    shape of the body: an array, bare or under the key [todos], replaces
    the collection by as many records, with the ids of the items in
    order; any other value that is not [null] empties it; [null] leaves
    it untouched.  In all four cases [loading] ends false and no error is
    recorded. *)
Theorem fetchTodos_payload_shapes
    (r : Remote.FetchOutcome Remote.TodosPayload) (s : Remote.State)
    (data : Remote.TodosPayload) :
  Remote.apiRequest_try r = Remote.Fulfilled data ->
  let after := Remote.fetchTodos r s in
  Remote.loading after = false
  ∧ Remote.error after = ""
  ∧ match data with
    | Remote.PArray items | Remote.PObject (Some items) =>
        Remote.todos after = Remote.normalize <$> items
        ∧ length (Remote.todos after) = length items
        ∧ Remote.id <$> Remote.todos after = Remote.raw_id <$> items
    | Remote.PObject None => Remote.todos after = []
    | Remote.PNull => Remote.todos after = Remote.todos s
    end.
Proof.
  intros Hr after. subst after.
  unfold Remote.fetchTodos, Remote.fetchTodos_settle, Remote.apiRequest_settle.
  rewrite Hr.
  destruct data as [| items | [items |]]; cbn; repeat split;
    rewrite ?length_fmap, <- ?list_fmap_compose; done.
Qed.

Lemma fetchTodos_payload_shapes_witness :
  let reply (d : Remote.TodosPayload) : Remote.FetchOutcome Remote.TodosPayload :=
    Remote.Fulfilled
      (Remote.mkResponse true 200 (Some "application/json")
         (Remote.Fulfilled "") (Remote.Fulfilled d)) in
  let s := Remote.set_todos [Remote.mkTodo 1 "a" true None (Some false)]
             Remote.initial in
  Remote.todos (Remote.fetchTodos (reply (Remote.PObject None)) s) = [].
Proof.
  cbv zeta.
  exact (proj2 (proj2 (fetchTodos_payload_shapes
    (Remote.Fulfilled
      (Remote.mkResponse true 200 (Some "application/json")
         (Remote.Fulfilled "") (Remote.Fulfilled (Remote.PObject None))))
    (Remote.set_todos [Remote.mkTodo 1 "a" true None (Some false)]
       Remote.initial)
    (Remote.PObject None) eq_refl))).
Defined.

(** ** Adding *)

(** X6.  With a title that is not blank and a request that succeeds with
    a record, [addTodo] puts that record at the front of the collection
    (not completed unless the server says so, not being edited), empties
    the input field, clears [error.value], ends with [loading] false, and
    has sent one [POST /todos] whose body is the trimmed title. *)
Theorem addTodo_success_prepends
    (r : Remote.FetchOutcome (option Remote.Created)) (s : Remote.State)
    (d : Remote.Created) :
  JsString.trim (Remote.newTodo s) ≠ "" ->
  Remote.apiRequest_try r = Remote.Fulfilled (Some d) ->
  Remote.addTodo r s
  = Remote.mkState ""
      (Remote.mkTodo (Remote.created_id d) (Remote.created_title d)
         (default false (Remote.created_completed d))
         (Remote.created_createdAt d) (Some false)
       :: Remote.todos s)
      (Remote.filter s) (Remote.editedTodoText s) (Remote.activeTab s)
      false ""
      (Remote.sent s
       ++ [Remote.mkSent (Remote.API_BASE_URL ++ "/todos")%string
             (Some (Remote.fetch_init
                      (Remote.mkInit (Some "POST")
                         (Some (JObj [("title",
                                       JStr (JsString.trim (Remote.newTodo s)))]))
                         None)))]).
Proof.
  intros Hne Hr. apply truthy_true in Hne.
  unfold Remote.addTodo, Remote.apiRequest, Remote.apiRequest_settle.
  by rewrite Hne, Hr.
Qed.

(** Scenario A of the specification. *)
Lemma addTodo_success_prepends_witness :
  let r : Remote.FetchOutcome (option Remote.Created) :=
    Remote.Fulfilled
      (Remote.mkResponse true 201 (Some "application/json")
         (Remote.Fulfilled "")
         (Remote.Fulfilled
            (Some (Remote.mkCreated 1 "Buy milk" (Some false) (Some "t0"))))) in
  let s := Remote.set_newTodo " Buy milk " Remote.initial in
  Remote.todos (Remote.addTodo r s)
  = [Remote.mkTodo 1 "Buy milk" false (Some "t0") (Some false)]
  ∧ Remote.newTodo (Remote.addTodo r s) = "".
Proof.
  cbv zeta.
  rewrite (addTodo_success_prepends _
             (Remote.set_newTodo " Buy milk " Remote.initial)
             (Remote.mkCreated 1 "Buy milk" (Some false) (Some "t0")));
    [split; reflexivity | discriminate | reflexivity].
Defined.

(** X7.  With a title that is not blank and a request that fails,
    [addTodo] leaves the collection and the input field as they were (the
    user can retry), ends with [loading] false and records the error. *)
Theorem addTodo_failure_keeps_input
    (r : Remote.FetchOutcome (option Remote.Created)) (s : Remote.State)
    (err : Remote.JsError) :
  JsString.trim (Remote.newTodo s) ≠ "" ->
  Remote.apiRequest_try r = Remote.Rejected err ->
  Remote.todos (Remote.addTodo r s) = Remote.todos s
  ∧ Remote.newTodo (Remote.addTodo r s) = Remote.newTodo s
  ∧ Remote.loading (Remote.addTodo r s) = false
  ∧ Remote.error (Remote.addTodo r s) = Remote.apiRequest_catch err
  ∧ length (Remote.sent (Remote.addTodo r s)) = S (length (Remote.sent s)).
Proof.
  intros Hne Hr. apply truthy_true in Hne.
  unfold Remote.addTodo, Remote.apiRequest, Remote.apiRequest_settle.
  rewrite Hne, Hr. cbn. repeat split.
  rewrite length_app. cbn. lia.
Qed.

Lemma addTodo_failure_keeps_input_witness :
  let r : Remote.FetchOutcome (option Remote.Created) :=
    Remote.Fulfilled
      (Remote.mkResponse false 500 None
         (Remote.Fulfilled "database is down") (Remote.Fulfilled None)) in
  let s := Remote.set_newTodo "Buy milk" Remote.initial in
  Remote.todos (Remote.addTodo r s) = []
  ∧ Remote.newTodo (Remote.addTodo r s) = "Buy milk"
  ∧ Remote.error (Remote.addTodo r s) = "database is down".
Proof.
  cbv zeta.
  pose proof (addTodo_failure_keeps_input
    (Remote.Fulfilled
      (Remote.mkResponse false 500 None
         (Remote.Fulfilled "database is down") (Remote.Fulfilled None)))
    (Remote.set_newTodo "Buy milk" Remote.initial)
    (Remote.Error "database is down")) as H.
  destruct H as (H1 & H2 & _ & H4 & _); [discriminate | reflexivity |].
  repeat split; assumption.
Defined.

(** ** Toggling and deleting *)

Lemma js_find_intro {A : Type} (p : A -> bool) (l : list A) i x :
  l !! i = Some x -> p x = true ->
  (forall j y, l !! j = Some y -> j < i -> p y = false) ->
  JsArray.find p l = Some (i, x).
Proof.
  intros Hl Hp Hmin. unfold JsArray.find. apply list_find_Some.
  repeat split; [done.. |]. intros j y Hj Hlt.
  rewrite (Hmin j y Hj Hlt). discriminate.
Qed.

Lemma js_find_absent {A : Type} (p : A -> bool) (l : list A) :
  (forall x, x ∈ l -> p x = false) -> JsArray.find p l = None.
Proof.
  intros H. unfold JsArray.find. apply list_find_None, Forall_forall.
  intros x Hx. rewrite (H x Hx). discriminate.
Qed.

Lemma remote_set_todos_id (s : Remote.State) :
  Remote.set_todos (Remote.todos s) s = s.
Proof. by destruct s. Qed.

Lemma local_set_todos_id (s : Local.State) :
  Local.set_todos (Local.todos s) s = s.
Proof. by destruct s. Qed.

(** X8.  An id no record carries: in the remote variant [toggleTodo] and
    [deleteTodo] return the state they were given (nothing is sent); in
    the local variant [toggleTodo] does too, while [deleteTodo] keeps the
    collection but still writes it to storage. *)
Theorem unknown_id_is_ignored :
  (forall (s : Remote.State) (id0 : Z)
          (r : Remote.FetchOutcome (option Remote.Updated))
          (r' : Remote.FetchOutcome unit),
     (forall t, t ∈ Remote.todos s -> Remote.id t ≠ id0) ->
     Remote.toggleTodo id0 r s = s ∧ Remote.deleteTodo id0 r' s = s)
  ∧ (forall (s : Local.State) (id0 : Z),
       (forall t, t ∈ Local.todos s -> Local.id t ≠ id0) ->
       Local.toggleTodo id0 s = s
       ∧ Local.todos (Local.deleteTodo id0 s) = Local.todos s
       ∧ Local.storage (Local.deleteTodo id0 s)
         = Local.storage s ++ [Local.stringify (Local.todos s)]).
Proof.
  split.
  - intros s id0 r r' H.
    assert (Hfind : JsArray.find (fun t => (Remote.id t =? id0)%Z)
                      (Remote.todos s) = None).
    { apply js_find_absent. intros t Ht. apply Z.eqb_neq. by apply H. }
    unfold Remote.toggleTodo, Remote.deleteTodo. by rewrite Hfind.
  - intros s id0 H.
    assert (Hfind : JsArray.find (fun t => (Local.id t =? id0)%Z)
                      (Local.todos s) = None).
    { apply js_find_absent. intros t Ht. apply Z.eqb_neq. by apply H. }
    assert (Hfilter : JsArray.filter (fun t => negb (Local.id t =? id0)%Z)
                        (Local.todos s) = Local.todos s).
    { apply js_filter_all. intros t Ht.
      apply negb_true_iff, Z.eqb_neq. by apply H. }
    unfold Local.toggleTodo, Local.deleteTodo. rewrite Hfind. cbn.
    by rewrite Hfilter.
Qed.

Lemma unknown_id_is_ignored_witness :
  let s := Remote.set_todos [Remote.mkTodo 1 "a" false None (Some false)]
             Remote.initial in
  let r : Remote.FetchOutcome (option Remote.Updated) :=
    Remote.Rejected (Remote.mkError true "Failed to fetch") in
  Remote.toggleTodo 2 r s = s.
Proof.
  cbv zeta. refine (proj1 (proj1 unknown_id_is_ignored _ 2%Z _
    (Remote.Rejected (Remote.mkError true "Failed to fetch")) _)).
  intros t Ht. apply list_elem_of_singleton in Ht. by subst t.
Defined.

(** X9.  When the update request of [toggleTodo] succeeds, the first
    record with the id gets the [completed] value of the server's answer
    (whatever the optimistic value was) and every other position of the
    collection is as before; the body sent carried the record's title and
    the flipped value. *)
Theorem toggleTodo_success_server_wins
    (s : Remote.State) (id0 : Z) (r : Remote.FetchOutcome (option Remote.Updated))
    (i : nat) (t : Remote.Todo) (u : Remote.Updated) :
  Remote.todos s !! i = Some t ->
  Remote.id t = id0 ->
  (forall j t', Remote.todos s !! j = Some t' -> j < i -> Remote.id t' ≠ id0) ->
  Remote.apiRequest_try r = Remote.Fulfilled (Some u) ->
  Remote.todos (Remote.toggleTodo id0 r s)
  = <[i := Remote.set_completed (Remote.updated_completed u) t]>
      (Remote.todos s)
  ∧ Remote.sent (Remote.toggleTodo id0 r s)
    = Remote.sent s
      ++ [Remote.mkSent (Remote.API_BASE_URL ++ Remote.todo_endpoint id0)%string
            (Some (Remote.fetch_init
                     (Remote.mkInit (Some "PUT")
                        (Some (JObj [("title", JStr (Remote.title t));
                                     ("completed",
                                      JBool (negb (Remote.completed t)))]))
                        None)))]
  ∧ Remote.error (Remote.toggleTodo id0 r s) = Remote.error s.
Proof.
  intros Hi Hid Hfirst Hr.
  assert (Hfind : JsArray.find (fun t => (Remote.id t =? id0)%Z)
                    (Remote.todos s) = Some (i, t)).
  { apply js_find_intro; [done | by apply Z.eqb_eq |].
    intros j y Hj Hlt. apply Z.eqb_neq. eauto. }
  unfold Remote.toggleTodo, Remote.apiRequest, Remote.apiRequest_settle.
  rewrite Hfind, Hr. cbn. rewrite list_insert_insert_eq. done.
Qed.

Lemma toggleTodo_success_server_wins_witness :
  let t := Remote.mkTodo 1 "a" false None (Some false) in
  let s := Remote.set_todos [t] Remote.initial in
  let stale : Remote.FetchOutcome (option Remote.Updated) :=
    Remote.Fulfilled
      (Remote.mkResponse true 200 (Some "application/json")
         (Remote.Fulfilled "")
         (Remote.Fulfilled (Some (Remote.mkUpdated "a" false)))) in
  Remote.todos (Remote.toggleTodo 1 stale s) = [t].
Proof.
  cbv zeta.
  refine (proj1 (toggleTodo_success_server_wins
    (Remote.set_todos [Remote.mkTodo 1 "a" false None (Some false)]
       Remote.initial)
    1
    (Remote.Fulfilled
      (Remote.mkResponse true 200 (Some "application/json")
         (Remote.Fulfilled "")
         (Remote.Fulfilled (Some (Remote.mkUpdated "a" false)))))
    0%nat (Remote.mkTodo 1 "a" false None (Some false))
    (Remote.mkUpdated "a" false) eq_refl eq_refl _ eq_refl)).
  intros j t' _ Hlt. lia.
Defined.

(** X10.  When the deletion request succeeds, the collection after
    [deleteTodo] is the collection before it without the records that
    carry the id: none of them is left, the others keep their order, and
    a record with another id is in the collection after exactly when it
    was before. *)
Theorem deleteTodo_success_removes
    (s : Remote.State) (id0 : Z) (r : Remote.FetchOutcome unit) (d : unit) :
  Remote.apiRequest_try r = Remote.Fulfilled d ->
  let after := Remote.todos (Remote.deleteTodo id0 r s) in
  (forall t, t ∈ after -> Remote.id t ≠ id0)
  ∧ sublist after (Remote.todos s)
  ∧ (forall t, Remote.id t ≠ id0 -> t ∈ after ↔ t ∈ Remote.todos s).
Proof.
  intros Hr after.
  assert (Hafter : after = JsArray.filter (fun t => negb (Remote.id t =? id0)%Z)
                             (Remote.todos s)).
  { subst after. unfold Remote.deleteTodo.
    destruct (JsArray.find _ _) as [[i t] |] eqn:Hfind.
    - unfold Remote.apiRequest, Remote.apiRequest_settle. by rewrite Hr.
    - symmetry. apply js_filter_all. intros t Ht.
      apply negb_true_iff. exact (js_find_None _ _ _ Hfind Ht). }
  rewrite Hafter. split; [| split].
  - intros t Ht. apply js_filter_elem in Ht as [_ Ht].
    by apply negb_true_iff, Z.eqb_neq in Ht.
  - apply js_filter_sublist.
  - intros t Ht. rewrite js_filter_elem.
    apply Z.eqb_neq in Ht. rewrite Ht. cbn. tauto.
Qed.

Lemma deleteTodo_success_removes_witness :
  let s := Remote.set_todos
             [Remote.mkTodo 1 "a" false None (Some false);
              Remote.mkTodo 2 "b" false None (Some false)] Remote.initial in
  let r : Remote.FetchOutcome unit :=
    Remote.Fulfilled
      (Remote.mkResponse true 200 (Some "application/json")
         (Remote.Fulfilled "") (Remote.Fulfilled tt)) in
  Forall (fun t => Remote.id t ≠ 1%Z)
         (Remote.todos (Remote.deleteTodo 1 r s)).
Proof.
  cbv zeta. apply Forall_forall.
  exact (proj1 (deleteTodo_success_removes _ 1
    (Remote.Fulfilled
      (Remote.mkResponse true 200 (Some "application/json")
         (Remote.Fulfilled "") (Remote.Fulfilled tt))) tt eq_refl)).
Defined.

Lemma non_json_reply_fails {A : Type} (response : Remote.Response A) :
  Remote.ok response = true ->
  (forall contentType,
     Remote.content_type response = Some contentType ->
     JsString.includes contentType "application/json" = false) ->
  Remote.fails (Remote.Fulfilled response).
Proof.
  intros Hok Hct. unfold Remote.fails, Remote.apiRequest_try. rewrite Hok. cbn.
  destruct (Remote.content_type response) as [ct |].
  - rewrite (Hct ct eq_refl), andb_false_r.
    destruct (Remote.response_text response); eauto.
  - destruct (Remote.response_text response); eauto.
Qed.

Lemma deleteTodo_rejected_todos (s : Remote.State) (id0 : Z)
    (r : Remote.FetchOutcome unit) (i : nat) (t : Remote.Todo) :
  Remote.todos s !! i = Some t ->
  Remote.id t = id0 ->
  (forall j t', Remote.todos s !! j = Some t' -> Remote.id t' = id0 -> j = i) ->
  Remote.fails r ->
  Remote.todos (Remote.deleteTodo id0 r s) = Remote.todos s.
Proof.
  intros Hi Hid Huniq [err Hfail].
  assert (Hfind : JsArray.find (fun t => (Remote.id t =? id0)%Z)
                    (Remote.todos s) = Some (i, t)).
  { apply js_find_intro; [done | by apply Z.eqb_eq |].
    intros j y Hj Hlt. apply Z.eqb_neq. intros Hy.
    specialize (Huniq j y Hj Hy). lia. }
  unfold Remote.deleteTodo.
  rewrite Hfind, (apiRequest_rejected _ _ _ _ _ Hfail). cbn.
  apply js_splice_after_filter; [done | |].
  - by apply negb_false_iff, Z.eqb_eq.
  - intros j y Hj Hy. apply negb_false_iff, Z.eqb_eq in Hy. eauto.
Qed.

(** X11.  A deletion the server accepts with a reply that is not JSON
    (a bare [204 No Content], say) counts as a failure: when the record
    is the only one with its id, [deleteTodo] puts it back and the
    collection is as before, with an error recorded. *)
Theorem deleteTodo_needs_json_reply
    (s : Remote.State) (id0 : Z) (response : Remote.Response unit)
    (i : nat) (t : Remote.Todo) :
  Remote.todos s !! i = Some t ->
  Remote.id t = id0 ->
  (forall j t', Remote.todos s !! j = Some t' -> Remote.id t' = id0 -> j = i) ->
  Remote.ok response = true ->
  (forall contentType,
     Remote.content_type response = Some contentType ->
     JsString.includes contentType "application/json" = false) ->
  Remote.todos (Remote.deleteTodo id0 (Remote.Fulfilled response) s)
  = Remote.todos s
  ∧ exists err,
      Remote.apiRequest_try (Remote.Fulfilled response) = Remote.Rejected err
      ∧ Remote.error (Remote.deleteTodo id0 (Remote.Fulfilled response) s)
        = Remote.apiRequest_catch err.
Proof.
  intros Hi Hid Huniq Hok Hct.
  pose proof (non_json_reply_fails response Hok Hct) as Hfails.
  split; [by eapply deleteTodo_rejected_todos |].
  destruct Hfails as [err Hfail]. exists err. split; [done |].
  assert (Hfind : JsArray.find (fun t => (Remote.id t =? id0)%Z)
                    (Remote.todos s) = Some (i, t)).
  { apply js_find_intro; [done | by apply Z.eqb_eq |].
    intros j y Hj Hlt. apply Z.eqb_neq. intros Hy.
    specialize (Huniq j y Hj Hy). lia. }
  unfold Remote.deleteTodo.
  by rewrite Hfind, (apiRequest_rejected _ _ _ _ _ Hfail).
Qed.

Lemma deleteTodo_needs_json_reply_witness :
  let t := Remote.mkTodo 1 "a" false None (Some false) in
  let s := Remote.set_todos [t] Remote.initial in
  let no_content : Remote.Response unit :=
    Remote.mkResponse true 204 None (Remote.Fulfilled "") (Remote.Fulfilled tt) in
  Remote.todos (Remote.deleteTodo 1 (Remote.Fulfilled no_content) s) = [t].
Proof.
  cbv zeta.
  refine (proj1 (deleteTodo_needs_json_reply
    (Remote.set_todos [Remote.mkTodo 1 "a" false None (Some false)]
       Remote.initial)
    1
    (Remote.mkResponse true 204 None (Remote.Fulfilled "") (Remote.Fulfilled tt))
    0%nat (Remote.mkTodo 1 "a" false None (Some false))
    eq_refl eq_refl _ eq_refl _)).
  - intros [| j] t' Hj _; [done | discriminate].
  - intros ct Hct. discriminate.
Defined.

(** ** Bulk clear, continued *)

Lemma length_filter_split {A : Type} (p : A -> bool) (l : list A) :
  length (JsArray.filter (fun x => negb (p x)) l)
  + length (JsArray.filter p l) = length l.
Proof.
  unfold JsArray.filter. induction l as [| a l IH]; [done |].
  rewrite !filter_cons. destruct (p a) eqn:Hp; cbn.
  - destruct (decide (false = true)); [done |].
    destruct (decide (true = true)); [| done]. cbn. lia.
  - destruct (decide (true = true)); [| done].
    destruct (decide (false = true)); [done |]. cbn. lia.
Qed.

Lemma js_filter_idem {A : Type} (p : A -> bool) (l : list A) :
  JsArray.filter p (JsArray.filter p l) = JsArray.filter p l.
Proof.
  apply js_filter_all. intros x Hx. by apply js_filter_elem in Hx as [_ Hx].
Qed.

Lemma js_filter_nil {A : Type} (p : A -> bool) (l : list A) :
  (forall x, x ∈ l -> p x = false) -> JsArray.filter p l = [].
Proof.
  unfold JsArray.filter. induction l as [| a l IH]; intros H; [done |].
  rewrite filter_cons_False by (rewrite (H a); [discriminate | by left]).
  apply IH. intros x Hx. apply H. by right.
Qed.

Lemma error_send_batch (l : list Remote.Todo) s :
  Remote.error
    (foldl (fun s todo =>
              Remote.apiRequest_send (Remote.todo_endpoint (Remote.id todo))
                (Remote.mkInit (Some "DELETE") None None) s) s l)
  = Remote.error s.
Proof.
  revert s. induction l as [| t l IH]; intros s; [done |]. cbn. by rewrite IH.
Qed.

Lemma js_some_filter {A : Type} (p : A -> bool) (l : list A) :
  JsArray.some p l = false ↔ JsArray.filter p l = [].
Proof.
  unfold JsArray.some, JsArray.filter.
  induction l as [| a l IH]; [done |].
  change (existsb p (a :: l)) with (p a || existsb p l).
  destruct (p a) eqn:Hp.
  - rewrite filter_cons_True by done. split; discriminate.
  - rewrite filter_cons_False by (rewrite Hp; discriminate). exact IH.
Qed.

(** X12.  When every deletion request of [clearCompleted] succeeds, the
    collection keeps exactly its records that are not completed, in
    order; one [DELETE] per completed record was sent, in the order of
    the collection, and nothing else (no reload); the counter of active
    items is as before and the "Clear completed" button is no longer
    shown. *)
Theorem clearCompleted_success_keeps_active
    (settles : nat -> Remote.FetchOutcome unit) (k : nat)
    (r : Remote.FetchOutcome Remote.TodosPayload) (s : Remote.State) :
  (forall n,
     n < length (JsArray.filter (fun t => Remote.completed t) (Remote.todos s)) ->
     Remote.failsb (settles n) = false) ->
  let after := Remote.clearCompleted settles k r s in
  Remote.todos after
  = JsArray.filter (fun t => negb (Remote.completed t)) (Remote.todos s)
  ∧ Remote.sent after
    = Remote.sent s
      ++ ((fun todo =>
             Remote.mkSent
               (Remote.API_BASE_URL ++ Remote.todo_endpoint (Remote.id todo))%string
               (Some (Remote.fetch_init
                        (Remote.mkInit (Some "DELETE") None None))))
          <$> JsArray.filter (fun t => Remote.completed t) (Remote.todos s))
  ∧ Remote.error after = Remote.error s
  ∧ Remote.activeTodosCount after = Remote.activeTodosCount s
  ∧ Remote.show_clear_completed after = false.
Proof.
  intros Hall after. subst after. unfold Remote.clearCompleted.
  set (completedTodos := JsArray.filter _ (Remote.todos s)) in *.
  assert (Hfind : JsArray.find Remote.failsb
                    (settles <$> seq 0 (length completedTodos)) = None).
  { apply js_find_absent. intros x Hx.
    apply list_elem_of_fmap in Hx as (n & -> & Hn).
    apply elem_of_seq in Hn. apply Hall. lia. }
  rewrite Hfind.
  set (batch := foldl _ s completedTodos).
  assert (Htodos : Remote.todos batch = Remote.todos s)
    by apply todos_send_batch.
  assert (Herr : Remote.error batch = Remote.error s)
    by apply error_send_batch.
  unfold Remote.activeTodosCount, Remote.show_clear_completed.
  cbn [Remote.todos Remote.set_todos Remote.sent Remote.error].
  rewrite Htodos. split; [done |]. split; [apply sent_send_batch |].
  split; [done |]. split.
  - by rewrite js_filter_idem.
  - apply js_some_filter, js_filter_nil. intros t Ht.
    apply js_filter_elem in Ht as [_ Ht]. by apply negb_true_iff in Ht.
Qed.

Lemma clearCompleted_success_keeps_active_witness :
  let a := Remote.mkTodo 1 "a" true None (Some false) in
  let b := Remote.mkTodo 2 "b" false None (Some false) in
  let s := Remote.set_todos [a; b] Remote.initial in
  let fine : Remote.FetchOutcome unit :=
    Remote.Fulfilled
      (Remote.mkResponse true 200 (Some "application/json")
         (Remote.Fulfilled "") (Remote.Fulfilled tt)) in
  let down : Remote.FetchOutcome Remote.TodosPayload :=
    Remote.Rejected (Remote.mkError true "Failed to fetch") in
  Remote.todos (Remote.clearCompleted (fun _ => fine) 0 down s) = [b].
Proof.
  cbv zeta.
  refine (proj1 (clearCompleted_success_keeps_active
    (fun _ => Remote.Fulfilled
                (Remote.mkResponse true 200 (Some "application/json")
                   (Remote.Fulfilled "") (Remote.Fulfilled tt)))
    0 (Remote.Rejected (Remote.mkError true "Failed to fetch"))
    (Remote.set_todos
       [Remote.mkTodo 1 "a" true None (Some false);
        Remote.mkTodo 2 "b" false None (Some false)] Remote.initial) _)).
  intros n _. reflexivity.
Defined.

Lemma js_some_counts {A : Type} (p : A -> bool) (l : list A) :
  (JsArray.some p l = true
   ↔ length (JsArray.filter (fun x => negb (p x)) l) < length l)
  ∧ (JsArray.some p l = false ->
     JsArray.filter (fun x => negb (p x)) l = l).
Proof.
  pose proof (length_filter_split p l) as Hlen.
  pose proof (js_some_filter p l) as Hsome.
  split.
  - destruct (JsArray.filter p l) as [| x k] eqn:Hf.
    + rewrite (proj2 Hsome eq_refl). cbn in Hlen. split; [done | lia].
    + destruct (JsArray.some p l).
      * cbn in Hlen. split; [lia | done].
      * by pose proof (proj1 Hsome eq_refl).
  - intros Hno. apply Hsome in Hno. apply js_filter_all.
    intros x Hx. destruct (p x) eqn:Hp; [| done].
    assert (Hin : x ∈ JsArray.filter p l) by by apply js_filter_elem.
    rewrite Hno in Hin. by apply elem_of_nil in Hin.
Qed.

(** X13.  In both variants the "Clear completed" button is shown exactly
    when the counter of active items is below the size of the collection.
    When it is not shown, [clearCompleted] would change nothing: the
    remote one returns the state it was given without sending a request,
    the local one keeps the collection. *)
Theorem clear_button_matches_clearCompleted :
  (forall s : Remote.State,
     (Remote.show_clear_completed s = true
      ↔ Remote.activeTodosCount s < length (Remote.todos s))
     ∧ (Remote.show_clear_completed s = false ->
        forall settles k r, Remote.clearCompleted settles k r s = s))
  ∧ (forall s : Local.State,
       (Local.show_clear_completed s = true
        ↔ Local.activeTodosCount s < length (Local.todos s))
       ∧ (Local.show_clear_completed s = false ->
          Local.todos (Local.clearCompleted s) = Local.todos s)).
Proof.
  split; intros s.
  - destruct (js_some_counts (fun t => Remote.completed t) (Remote.todos s))
      as [Hiff Hkeep].
    split; [exact Hiff |].
    intros Hno settles k r.
    assert (Hnone : JsArray.filter (fun t => Remote.completed t)
                      (Remote.todos s) = [])
      by by apply js_some_filter.
    unfold Remote.clearCompleted. rewrite Hnone.
    change (Remote.set_todos
              (JsArray.filter (fun t => negb (Remote.completed t))
                 (Remote.todos s)) s = s).
    rewrite (Hkeep Hno). apply remote_set_todos_id.
  - destruct (js_some_counts (fun t => Local.completed t) (Local.todos s))
      as [Hiff Hkeep].
    split; [exact Hiff |]. intros Hno. exact (Hkeep Hno).
Qed.

Lemma clear_button_matches_clearCompleted_witness :
  let s := Remote.set_todos [Remote.mkTodo 2 "b" false None (Some false)]
             Remote.initial in
  let down : Remote.FetchOutcome unit :=
    Remote.Rejected (Remote.mkError true "Failed to fetch") in
  let gone : Remote.FetchOutcome Remote.TodosPayload :=
    Remote.Rejected (Remote.mkError true "Failed to fetch") in
  Remote.clearCompleted (fun _ => down) 0 gone s = s.
Proof.
  cbv zeta.
  exact (proj2 (proj1 clear_button_matches_clearCompleted
                  (Remote.set_todos
                     [Remote.mkTodo 2 "b" false None (Some false)]
                     Remote.initial))
           eq_refl _ 0 _).
Defined.

(** X14.  In both variants the counter of active items and the size of
    the ['completed'] view add up to the size of the collection. *)
Theorem active_and_completed_add_up :
  (forall s : Remote.State,
     Remote.activeTodosCount s
     + length (Remote.filteredTodos (Remote.set_filter Completed s)).1
     = length (Remote.todos s))
  ∧ (forall s : Local.State,
       Local.activeTodosCount s
       + length (Local.filteredTodos (Local.set_filter Completed s)).1
       = length (Local.todos s)).
Proof.
  split; intros s.
  - exact (length_filter_split (fun t => Remote.completed t) (Remote.todos s)).
  - exact (length_filter_split (fun t => Local.completed t) (Local.todos s)).
Qed.

(** ** Renaming *)

(** X15.  When the buffer is not blank and the update request of
    [saveEdit] fails, the record has its title of before the call and is
    back in edit mode; the other records are untouched; one [PUT] went
    out, carrying the trimmed buffer and the record's [completed]. *)
Theorem saveEdit_failure_reopens_edit
    (s : Remote.State) (i : nat) (t : Remote.Todo)
    (r : Remote.FetchOutcome (option Remote.Updated)) :
  Remote.todos s !! i = Some t ->
  JsString.trim (Remote.editedTodoText s) ≠ "" ->
  Remote.fails r ->
  Remote.todos (Remote.saveEdit i r s)
  = <[i := Remote.set_isEditing true t]> (Remote.todos s)
  ∧ Remote.sent (Remote.saveEdit i r s)
    = Remote.sent s
      ++ [Remote.mkSent
            (Remote.API_BASE_URL ++ Remote.todo_endpoint (Remote.id t))%string
            (Some (Remote.fetch_init
                     (Remote.mkInit (Some "PUT")
                        (Some (JObj
                                 [("title",
                                   JStr (JsString.trim (Remote.editedTodoText s)));
                                  ("completed", JBool (Remote.completed t))]))
                        None)))].
Proof.
  intros Hi Hne [err Hfail]. apply truthy_true in Hne.
  unfold Remote.saveEdit. rewrite Hi, Hne.
  cbn [negb]. cbv iota.
  rewrite (apiRequest_rejected _ _ _ _ _ Hfail).
  cbn [Remote.todos Remote.set_todos Remote.set_error Remote.apiRequest_send
       Remote.fetch Remote.sent].
  rewrite list_insert_insert_eq. by destruct t.
Qed.

Lemma saveEdit_failure_reopens_edit_witness :
  let t := Remote.mkTodo 1 "old" false None (Some true) in
  let s := Remote.set_editedTodoText " new " (Remote.set_todos [t] Remote.initial) in
  let r : Remote.FetchOutcome (option Remote.Updated) :=
    Remote.Rejected (Remote.mkError true "Failed to fetch") in
  Remote.todos (Remote.saveEdit 0 r s) = [t].
Proof.
  cbv zeta.
  refine (proj1 (saveEdit_failure_reopens_edit
    (Remote.set_editedTodoText " new "
       (Remote.set_todos [Remote.mkTodo 1 "old" false None (Some true)]
          Remote.initial))
    0 (Remote.mkTodo 1 "old" false None (Some true))
    (Remote.Rejected (Remote.mkError true "Failed to fetch"))
    eq_refl _ (ex_intro _ (Remote.mkError true "Failed to fetch") eq_refl))).
  discriminate.
Defined.

(** X16.  When the buffer is not blank and the update request of
    [saveEdit] succeeds, the record takes the title of the server's
    answer (not the text that was typed) and leaves edit mode; the other
    records are untouched. *)
Theorem saveEdit_success_takes_server_title
    (s : Remote.State) (i : nat) (t : Remote.Todo)
    (r : Remote.FetchOutcome (option Remote.Updated)) (u : Remote.Updated) :
  Remote.todos s !! i = Some t ->
  JsString.trim (Remote.editedTodoText s) ≠ "" ->
  Remote.apiRequest_try r = Remote.Fulfilled (Some u) ->
  Remote.todos (Remote.saveEdit i r s)
  = <[i := Remote.set_isEditing false
             (Remote.set_title (Remote.updated_title u) t)]> (Remote.todos s).
Proof.
  intros Hi Hne Hr. apply truthy_true in Hne.
  unfold Remote.saveEdit. rewrite Hi, Hne.
  cbn [negb]. cbv iota.
  rewrite (apiRequest_fulfilled _ _ _ _ _ Hr).
  cbn [Remote.todos Remote.set_todos Remote.apiRequest_send Remote.fetch].
  rewrite list_insert_insert_eq. by destruct t.
Qed.

Lemma saveEdit_success_takes_server_title_witness :
  let t := Remote.mkTodo 1 "old" false None (Some true) in
  let s := Remote.set_editedTodoText " new " (Remote.set_todos [t] Remote.initial) in
  let r : Remote.FetchOutcome (option Remote.Updated) :=
    Remote.Fulfilled
      (Remote.mkResponse true 200 (Some "application/json")
         (Remote.Fulfilled "")
         (Remote.Fulfilled (Some (Remote.mkUpdated "New" false)))) in
  Remote.todos (Remote.saveEdit 0 r s)
  = [Remote.mkTodo 1 "New" false None (Some false)].
Proof.
  cbv zeta.
  refine (saveEdit_success_takes_server_title
    (Remote.set_editedTodoText " new "
       (Remote.set_todos [Remote.mkTodo 1 "old" false None (Some true)]
          Remote.initial))
    0 (Remote.mkTodo 1 "old" false None (Some true))
    (Remote.Fulfilled
      (Remote.mkResponse true 200 (Some "application/json")
         (Remote.Fulfilled "")
         (Remote.Fulfilled (Some (Remote.mkUpdated "New" false)))))
    (Remote.mkUpdated "New" false) eq_refl _ eq_refl).
  discriminate.
Defined.

(** X17.  With a blank buffer the two variants differ.  The remote
    [saveEdit] is [cancelEdit]: nothing is sent, the title stays, the
    record leaves edit mode and the buffer is emptied.  The local
    [saveEdit] returns the state it was given: the record stays in edit
    mode and nothing is written to storage. *)
Theorem saveEdit_blank_buffer :
  (forall (s : Remote.State) (i : nat) (t : Remote.Todo)
          (r : Remote.FetchOutcome (option Remote.Updated)),
     Remote.todos s !! i = Some t ->
     JsString.trim (Remote.editedTodoText s) = "" ->
     Remote.saveEdit i r s = Remote.cancelEdit i s
     ∧ Remote.sent (Remote.saveEdit i r s) = Remote.sent s
     ∧ Remote.todos (Remote.saveEdit i r s)
       = <[i := Remote.set_isEditing false t]> (Remote.todos s)
     ∧ Remote.editedTodoText (Remote.saveEdit i r s) = "")
  ∧ (forall (s : Local.State) (i : nat),
       JsString.trim (Local.editedTodoText s) = "" ->
       Local.saveEdit i s = s).
Proof.
  split.
  - intros s i t r Hi Hblank.
    assert (Hsave : Remote.saveEdit i r s = Remote.cancelEdit i s).
    { unfold Remote.saveEdit. by rewrite Hi, (truthy_empty _ Hblank). }
    rewrite Hsave. unfold Remote.cancelEdit. by rewrite Hi.
  - intros s i Hblank. unfold Local.saveEdit.
    rewrite (truthy_empty _ Hblank). by destruct (Local.todos s !! i).
Qed.

Lemma saveEdit_blank_buffer_witness :
  let t := Remote.mkTodo 1 "old" false None (Some true) in
  let s := Remote.set_editedTodoText "  " (Remote.set_todos [t] Remote.initial) in
  let r : Remote.FetchOutcome (option Remote.Updated) :=
    Remote.Rejected (Remote.mkError true "Failed to fetch") in
  Remote.sent (Remote.saveEdit 0 r s) = []
  ∧ Remote.todos (Remote.saveEdit 0 r s)
    = [Remote.mkTodo 1 "old" false None (Some false)].
Proof.
  cbv zeta.
  pose proof (proj1 saveEdit_blank_buffer
    (Remote.set_editedTodoText "  "
       (Remote.set_todos [Remote.mkTodo 1 "old" false None (Some true)]
          Remote.initial))
    0 (Remote.mkTodo 1 "old" false None (Some true))
    (Remote.Rejected (Remote.mkError true "Failed to fetch"))
    eq_refl eq_refl) as (_ & H2 & H3 & _).
  split; [exact H2 | exact H3].
Defined.

(** ** Mounting *)

(** X18.  [onMounted] loads the collection only behind a connection
    probe.  When the probe is rejected or answers with status 0, nothing
    but the probe is sent, the collection is untouched, [loading] ends
    false and the error names the backend address.  Otherwise the probe
    is followed by the [GET /todos] of [fetchTodos], whose outcome decides
    the collection. *)
Theorem onMounted_probe_gates_load
    (rc : Remote.Settled Z) (r : Remote.FetchOutcome Remote.TodosPayload)
    (s : Remote.State) :
  let probe := Remote.mkSent (Remote.API_BASE_URL ++ "/todos")%string None in
  let reachable :=
    match rc with
    | Remote.Fulfilled code => negb (code =? 0)%Z
    | Remote.Rejected _ => false
    end in
  if reachable then
    Remote.todos (Remote.onMounted rc r s) = Remote.todos (Remote.fetchTodos r s)
    ∧ Remote.sent (Remote.onMounted rc r s)
      = Remote.sent s
        ++ [probe;
            Remote.mkSent (Remote.API_BASE_URL ++ "/todos")%string
              (Some (Remote.fetch_init Remote.no_options))]
    ∧ Remote.loading (Remote.onMounted rc r s) = false
  else
    Remote.onMounted rc r s
    = Remote.mkState (Remote.newTodo s) (Remote.todos s) (Remote.filter s)
        (Remote.editedTodoText s) (Remote.activeTab s) false
        ("Cannot connect to backend server. Please check if it's running on "
         ++ Remote.API_BASE_URL)%string
        (Remote.sent s ++ [probe]).
Proof.
  cbv zeta. unfold Remote.onMounted, Remote.testConnection.
  destruct rc as [e | code]; [reflexivity |].
  destruct (code =? 0)%Z; [reflexivity |]. cbn [negb].
  cbv iota beta.
  split; [| split].
  - unfold Remote.fetchTodos. by apply todos_fetchTodos_settle.
  - rewrite sent_fetchTodos. cbn. by rewrite <- app_assoc.
  - unfold Remote.fetchTodos, Remote.fetchTodos_settle.
    by destruct (Remote.apiRequest_settle _ _) as [s' [err | data]].
Qed.

(** ** What goes over the network *)

Lemma fetch_init_no_headers m b :
  Remote.fetch_init (Remote.mkInit m b None)
  = Remote.mkInit m b (Some Spec.json_headers).
Proof.
  unfold Remote.fetch_init, Remote.spread_init, Remote.default_headers,
    Spec.json_headers.
  cbn [Remote.method Remote.body Remote.headers Remote.spread_key default].
  destruct m, b; cbn [Remote.spread_key]; by rewrite (left_id_L ∅ (∪)).
Qed.

Lemma api_call_list :
  Spec.api_call (Remote.mkSent (Remote.API_BASE_URL ++ "/todos")%string
                   (Some (Remote.fetch_init Remote.no_options))).
Proof.
  unfold Remote.no_options. rewrite fetch_init_no_headers. constructor.
Qed.

Lemma api_call_delete id0 :
  Spec.api_call
    (Remote.mkSent (Remote.API_BASE_URL ++ Remote.todo_endpoint id0)%string
       (Some (Remote.fetch_init (Remote.mkInit (Some "DELETE") None None)))).
Proof. rewrite fetch_init_no_headers. constructor. Qed.

Lemma api_call_put id0 todo :
  Spec.api_call
    (Remote.mkSent (Remote.API_BASE_URL ++ Remote.todo_endpoint id0)%string
       (Some (Remote.fetch_init
                (Remote.mkInit (Some "PUT") (Some (Remote.put_body todo)) None)))).
Proof. rewrite fetch_init_no_headers. constructor. Qed.

Lemma api_call_post x :
  JsString.truthy (JsString.trim x) = true ->
  Spec.api_call
    (Remote.mkSent (Remote.API_BASE_URL ++ "/todos")%string
       (Some (Remote.fetch_init
                (Remote.mkInit (Some "POST")
                   (Some (JObj [("title", JStr (JsString.trim x))])) None)))).
Proof.
  intros H. rewrite fetch_init_no_headers. constructor.
  - by apply truthy_true.
  - apply trim_no_white_ends.
Qed.

Lemma sent_run_calls (o : Remote.Op) (s : Remote.State) :
  exists new,
    Remote.sent (Remote.run o s) = Remote.sent s ++ new
    ∧ Forall Spec.api_call new.
Proof.
  assert (Hnone : exists new,
            Remote.sent s = Remote.sent s ++ new ∧ Forall Spec.api_call new).
  { exists []. by rewrite app_nil_r. }
  destruct o; cbn [Remote.run]; try exact Hnone.
  - (* Mounted *)
    unfold Remote.onMounted, Remote.testConnection.
    repeat case_match; simplify_eq; rewrite ?sent_fetchTodos; cbn;
      rewrite <- ?app_assoc; eexists; (split; [reflexivity |]);
      repeat constructor; try apply api_call_list.
  - (* RetryConnection *)
    unfold Remote.retryConnection. rewrite sent_fetchTodos.
    eexists. split; [reflexivity |]. repeat constructor; try apply api_call_list.
  - (* AddTodo *)
    unfold Remote.addTodo.
    destruct (JsString.truthy (JsString.trim (Remote.newTodo s))) eqn:Ht;
      [| exact Hnone].
    cbn [negb]. cbv iota.
    destruct (Remote.apiRequest _ _ _ _) as [s' res] eqn:Hreq.
    match type of Hreq with
    | Remote.apiRequest ?e ?o ?r ?s0 = _ =>
        pose proof (sent_apiRequest e o r s0) as Hs
    end.
    rewrite Hreq in Hs. cbn in Hs.
    eexists. split.
    + destruct res as [err | [d |]]; cbn; exact Hs.
    + constructor; [by apply api_call_post | constructor].
  - (* ToggleTodo *)
    unfold Remote.toggleTodo.
    destruct (JsArray.find _ _) as [[i todo] |]; [| exact Hnone].
    destruct (Remote.apiRequest _ _ _ _) as [s' res] eqn:Hreq.
    match type of Hreq with
    | Remote.apiRequest ?e ?o ?r ?s0 = _ =>
        pose proof (sent_apiRequest e o r s0) as Hs
    end.
    rewrite Hreq in Hs. cbn in Hs.
    eexists. split.
    + destruct res as [err | [d |]]; cbn; exact Hs.
    + constructor; [apply api_call_put | constructor].
  - (* DeleteTodo *)
    unfold Remote.deleteTodo.
    destruct (JsArray.find _ _) as [[i todo] |]; [| exact Hnone].
    destruct (Remote.apiRequest _ _ _ _) as [s' res] eqn:Hreq.
    match type of Hreq with
    | Remote.apiRequest ?e ?o ?r ?s0 = _ =>
        pose proof (sent_apiRequest e o r s0) as Hs
    end.
    rewrite Hreq in Hs. cbn in Hs.
    eexists. split.
    + destruct res as [err | d]; cbn; exact Hs.
    + constructor; [apply api_call_delete | constructor].
  - (* ClearCompleted *)
    unfold Remote.clearCompleted.
    set (completedTodos := JsArray.filter _ (Remote.todos s)).
    assert (Hbatch : Forall Spec.api_call
      ((fun todo =>
          Remote.mkSent
            (Remote.API_BASE_URL ++ Remote.todo_endpoint (Remote.id todo))%string
            (Some (Remote.fetch_init (Remote.mkInit (Some "DELETE") None None))))
       <$> completedTodos)).
    { apply Forall_fmap, Forall_forall. intros t _. apply api_call_delete. }
    destruct (JsArray.find Remote.failsb _) as [[j rejected] |].
    + rewrite sent_settle_all, sent_fetchTodos_settle, sent_settle_all. cbn.
      rewrite sent_apiRequest_settle, sent_send_batch, <- app_assoc.
      eexists. split; [reflexivity |].
      apply Forall_app. split; [exact Hbatch |].
      repeat constructor; try apply api_call_list.
    + cbn. rewrite sent_send_batch. eauto.
  - (* StartEditing *)
    unfold Remote.startEditing. case_match; exact Hnone.
  - (* SaveEdit *)
    unfold Remote.saveEdit.
    destruct (Remote.todos s !! i) as [todo |]; [| exact Hnone].
    case_match.
    { unfold Remote.cancelEdit. case_match; exact Hnone. }
    destruct (Remote.apiRequest _ _ _ _) as [s' res] eqn:Hreq.
    match type of Hreq with
    | Remote.apiRequest ?e ?o ?r ?s0 = _ =>
        pose proof (sent_apiRequest e o r s0) as Hs
    end.
    rewrite Hreq in Hs. cbn in Hs.
    eexists. split.
    + destruct res as [err | [d |]]; cbn; exact Hs.
    + constructor; [apply api_call_put | constructor].
  - (* CancelEdit *)
    unfold Remote.cancelEdit. case_match; exact Hnone.
Qed.

(** X19.  Whatever the user does and whatever the server answers, the
    remote component only ever calls [fetch] in five ways, all on the
    fixed base address: the bare probe of [/todos]; [GET /todos];
    [POST /todos] with a body that holds nothing but a title, which is
    not empty and has no white space at either end; [PUT /todos/<id>]
    with a title and a [completed] flag; [DELETE /todos/<id>] without a
    body.  Every call but the probe carries exactly the JSON content-type
    header.  Requests already sent are never dropped or reordered. *)
Theorem only_known_requests_are_sent :
  (forall (ops : list Remote.Op) (x : Remote.Sent),
     x ∈ Remote.sent (Remote.run_all ops Remote.initial) -> Spec.api_call x)
  ∧ (forall (ops : list Remote.Op) (s : Remote.State),
       Remote.sent s `prefix_of` Remote.sent (Remote.run_all ops s)).
Proof.
  split.
  - intros ops.
    enough (H : forall s, Forall Spec.api_call (Remote.sent s) ->
                Forall Spec.api_call (Remote.sent (Remote.run_all ops s))).
    { intros x. apply Forall_forall, H. constructor. }
    induction ops as [| o ops IH]; intros s Hs; [done |].
    change (Remote.run_all (o :: ops) s)
      with (Remote.run_all ops (Remote.run o s)).
    apply IH. destruct (sent_run_calls o s) as (new & -> & Hnew).
    by apply Forall_app.
  - induction ops as [| o ops IH]; intros s; [done |].
    change (Remote.run_all (o :: ops) s)
      with (Remote.run_all ops (Remote.run o s)).
    etrans; [| apply IH].
    destruct (sent_run_calls o s) as (new & -> & _). by apply prefix_app_r.
Qed.

Lemma only_known_requests_are_sent_witness :
  let created : Remote.FetchOutcome (option Remote.Created) :=
    Remote.Rejected (Remote.mkError true "Failed to fetch") in
  Forall Spec.api_call
    (Remote.sent
       (Remote.run_all
          [Remote.TypeNewTodo "  milk "; Remote.AddTodo created]
          Remote.initial)).
Proof.
  cbv zeta. apply Forall_forall.
  exact (proj1 only_known_requests_are_sent
           [Remote.TypeNewTodo "  milk ";
            Remote.AddTodo
              (Remote.Rejected (Remote.mkError true "Failed to fetch"))]).
Defined.

(** ** The local variant: storage and memory *)

Lemma fmap_insert_same {T K : Type} (f : T -> K) (l : list T) i t t' :
  l !! i = Some t -> f t' = f t -> f <$> <[i := t']> l = f <$> l.
Proof.
  intros Hl Hk. rewrite list_fmap_insert, Hk.
  apply list_insert_id. by rewrite list_lookup_fmap, Hl.
Qed.

Lemma synced_saveTodos (s : Local.State) : Spec.synced (Local.saveTodos s).
Proof.
  unfold Spec.synced. rewrite getItem_saveTodos.
  exists (Local.todos s). split; [apply parse_stringify | done].
Qed.

Lemma synced_same_content (s s' : Local.State) :
  Local.getItem s' = Local.getItem s ->
  Spec.content <$> Local.todos s' = Spec.content <$> Local.todos s ->
  Spec.synced s -> Spec.synced s'.
Proof.
  unfold Spec.synced. intros -> Hc.
  destruct (Local.getItem s) as [v |].
  - intros (l & Hp & Hl). exists l. by rewrite Hc.
  - intros H. rewrite H in Hc. by apply fmap_nil_inv in Hc.
Qed.

Lemma synced_flag (s : Local.State) i t b :
  Local.todos s !! i = Some t ->
  Spec.synced s ->
  Spec.synced (Local.set_todos (<[i := Local.set_isEditing b t]> (Local.todos s)) s).
Proof.
  intros Hi. apply synced_same_content; [done |].
  cbn [Local.todos Local.set_todos]. by apply (fmap_insert_same _ _ _ t).
Qed.

Lemma synced_step (o : Local.Op) (s : Local.State) :
  Spec.synced s -> Spec.synced (Local.run o s).
Proof.
  intros Hs. destruct o; cbn [Local.run]; try exact Hs.
  - unfold Local.addTodo. case_match; [apply synced_saveTodos | exact Hs].
  - unfold Local.toggleTodo.
    destruct (JsArray.find _ _) as [[i todo] |];
      [apply synced_saveTodos | exact Hs].
  - apply synced_saveTodos.
  - apply synced_saveTodos.
  - unfold Local.startEditing.
    destruct (Local.todos s !! i) as [todo |] eqn:Hi; [| exact Hs].
    apply (synced_flag (Local.set_editedTodoText (Local.text todo) s));
      [exact Hi |].
    by apply (synced_same_content s).
  - unfold Local.saveEdit.
    destruct (Local.todos s !! i) as [todo |]; [| exact Hs].
    case_match; [apply synced_saveTodos | exact Hs].
  - unfold Local.cancelEdit.
    destruct (Local.todos s !! i) as [todo |] eqn:Hi; [| exact Hs].
    by apply synced_flag.
Qed.

Lemma synced_handleKeyDown key todo now_id now_created (s : Local.State) :
  Spec.synced s ->
  Spec.synced (Local.handleKeyDown key todo now_id now_created s).
Proof.
  intros Hs. unfold Local.handleKeyDown.
  repeat case_match; try exact Hs.
  - exact (synced_step (Local.SaveEdit _) s Hs).
  - exact (synced_step (Local.AddTodo now_id now_created) s Hs).
  - exact (synced_step (Local.CancelEdit _) s Hs).
Qed.

Lemma synced_reload (s : Local.State) :
  Spec.synced s ->
  exists s', Local.onMounted (Local.initial (Local.storage s)) = Some s'
             ∧ Spec.content <$> Local.todos s'
               = Spec.content <$> Local.todos s.
Proof.
  unfold Spec.synced, Local.onMounted.
  change (Local.getItem (Local.initial (Local.storage s)))
    with (Local.getItem s).
  destruct (Local.getItem s) as [v |].
  - intros (l & -> & Hl). eauto.
  - intros ->. eauto.
Qed.

(** X20.  In the local variant the storage slot follows the collection.
    Start from a mounted component and run any sequence of operations
    (key presses through [handleKeyDown] included): mounting again from
    what is in storage succeeds and gives the same records in the same
    order, with the same id, text, [completed] and creation time.  Only
    the editing flags can differ, because [startEditing] and [cancelEdit]
    do not save. *)
Theorem storage_follows_collection :
  (forall (stored : list Json) (s0 : Local.State) (ops : list Local.Op),
     Local.onMounted (Local.initial stored) = Some s0 ->
     exists s',
       Local.onMounted
         (Local.initial (Local.storage (Local.run_all ops s0))) = Some s'
       ∧ Spec.content <$> Local.todos s'
         = Spec.content <$> Local.todos (Local.run_all ops s0))
  ∧ (forall key todo now_id now_created (s : Local.State),
       Spec.synced s ->
       Spec.synced (Local.handleKeyDown key todo now_id now_created s))
  ∧ (forall (o : Local.Op) (s : Local.State),
       Spec.synced s -> Spec.synced (Local.run o s)).
Proof.
  split; [| split; [exact synced_handleKeyDown | exact synced_step]].
  intros stored s0 ops Hm.
  assert (H0 : Spec.synced s0).
  { unfold Local.onMounted in Hm. unfold Spec.synced.
    destruct (Local.getItem (Local.initial stored)) as [v |] eqn:Hv.
    - destruct (Local.parse v) as [l |] eqn:Hp; [| done].
      simplify_eq.
      change (Local.getItem (Local.set_todos l (Local.initial stored)))
        with (Local.getItem (Local.initial stored)).
      rewrite Hv. eauto.
    - simplify_eq. by rewrite Hv. }
  apply synced_reload. clear Hm. revert s0 H0.
  induction ops as [| o ops IH]; intros s0 H0; [done |].
  change (Local.run_all (o :: ops) s0)
    with (Local.run_all ops (Local.run o s0)).
  by apply IH, synced_step.
Qed.

Lemma storage_follows_collection_witness :
  let s := Local.run_all
             [Local.TypeNewTodo "a"; Local.AddTodo 1 1;
              Local.StartEditing 0; Local.SetFilter Active]
             (Local.initial []) in
  exists s',
    Local.onMounted (Local.initial (Local.storage s)) = Some s'
    ∧ Spec.content <$> Local.todos s' = Spec.content <$> Local.todos s.
Proof.
  cbv zeta.
  exact (proj1 storage_follows_collection [] (Local.initial [])
           [Local.TypeNewTodo "a"; Local.AddTodo 1 1;
            Local.StartEditing 0; Local.SetFilter Active] eq_refl).
Defined.

(** ** The local variant: texts *)

Lemma trimmed_nonblank (x : string) :
  JsString.truthy (JsString.trim x) = true ->
  JsString.trim x ≠ "" ∧ Spec.no_white_ends (JsString.trim x).
Proof.
  intros H. split; [by apply truthy_true | apply trim_no_white_ends].
Qed.

Lemma texts_step (o : Local.Op) (s : Local.State) :
  Forall (fun t => Local.text t ≠ "" ∧ Spec.no_white_ends (Local.text t))
         (Local.todos s) ->
  Forall (fun t => Local.text t ≠ "" ∧ Spec.no_white_ends (Local.text t))
         (Local.todos (Local.run o s)).
Proof.
  intros Hs.
  assert (Hfilter : forall p,
    Forall (fun t => Local.text t ≠ "" ∧ Spec.no_white_ends (Local.text t))
           (JsArray.filter p (Local.todos s))).
  { intros p. apply Forall_forall. intros t Ht.
    apply js_filter_elem in Ht as [Ht _].
    rewrite Forall_forall in Hs. by apply Hs. }
  destruct o; cbn [Local.run]; try exact Hs.
  - unfold Local.addTodo.
    destruct (JsString.truthy (JsString.trim (Local.newTodo s))) eqn:Ht;
      [| exact Hs].
    cbn. constructor; [by apply trimmed_nonblank | exact Hs].
  - unfold Local.toggleTodo.
    destruct (JsArray.find _ _) as [[i todo] |] eqn:Hfind; [| exact Hs].
    apply js_find_Some in Hfind as (Hl & _ & _). cbn.
    apply Forall_insert; [exact Hs |].
    rewrite Forall_forall in Hs. apply (Hs todo).
    apply list_elem_of_lookup. eauto.
  - apply Hfilter.
  - apply Hfilter.
  - unfold Local.startEditing.
    destruct (Local.todos s !! i) as [todo |] eqn:Hl; [| exact Hs].
    cbn. apply Forall_insert; [exact Hs |].
    rewrite Forall_forall in Hs. apply (Hs todo).
    apply list_elem_of_lookup. eauto.
  - unfold Local.saveEdit.
    destruct (Local.todos s !! i) as [todo |] eqn:Hl; [| exact Hs].
    destruct (JsString.truthy (JsString.trim (Local.editedTodoText s))) eqn:Ht;
      [| exact Hs].
    cbn. apply Forall_insert; [exact Hs |]. by apply trimmed_nonblank.
  - unfold Local.cancelEdit.
    destruct (Local.todos s !! i) as [todo |] eqn:Hl; [| exact Hs].
    cbn. apply Forall_insert; [exact Hs |].
    rewrite Forall_forall in Hs. apply (Hs todo).
    apply list_elem_of_lookup. eauto.
Qed.

(** X21.  In the local variant no operation (key presses through
    [handleKeyDown] included) ever gives a record a text that is empty or
    that starts or ends with white space: if all texts of the collection
    are free of both, they still are afterwards.  A component that starts
    with an empty collection therefore never holds such a text. *)
Theorem local_texts_stay_trimmed :
  (forall (ops : list Local.Op) (s : Local.State),
     Forall (fun t => Local.text t ≠ "" ∧ Spec.no_white_ends (Local.text t))
            (Local.todos s) ->
     Forall (fun t => Local.text t ≠ "" ∧ Spec.no_white_ends (Local.text t))
            (Local.todos (Local.run_all ops s)))
  ∧ (forall key todo now_id now_created (s : Local.State),
       Forall (fun t => Local.text t ≠ "" ∧ Spec.no_white_ends (Local.text t))
              (Local.todos s) ->
       Forall (fun t => Local.text t ≠ "" ∧ Spec.no_white_ends (Local.text t))
              (Local.todos
                 (Local.handleKeyDown key todo now_id now_created s))).
Proof.
  split.
  - induction ops as [| o ops IH]; intros s Hs; [done |].
    change (Local.run_all (o :: ops) s)
      with (Local.run_all ops (Local.run o s)).
    by apply IH, texts_step.
  - intros key todo n1 n2 s Hs. unfold Local.handleKeyDown.
    repeat case_match; try exact Hs.
    + exact (texts_step (Local.SaveEdit _) s Hs).
    + exact (texts_step (Local.AddTodo n1 n2) s Hs).
    + exact (texts_step (Local.CancelEdit _) s Hs).
Qed.

Lemma local_texts_stay_trimmed_witness :
  Forall (fun t => Local.text t ≠ "" ∧ Spec.no_white_ends (Local.text t))
         (Local.todos
            (Local.run_all
               [Local.TypeNewTodo "  Buy milk  "; Local.AddTodo 1 1;
                Local.StartEditing 0; Local.TypeEditedText "   ";
                Local.SaveEdit 0]
               (Local.initial []))).
Proof.
  apply (proj1 local_texts_stay_trimmed). constructor.
Defined.

(** ** The local variant: toggling, deleting, clearing *)

(** X22.  In the local variant toggling a record twice gives the
    collection back, whether or not a record has the id. *)
Theorem local_toggle_twice (s : Local.State) (id0 : Z) :
  Local.todos (Local.toggleTodo id0 (Local.toggleTodo id0 s)) = Local.todos s.
Proof.
  unfold Local.toggleTodo at 2.
  destruct (JsArray.find _ (Local.todos s)) as [[i todo] |] eqn:Hfind.
  - pose proof (js_find_Some _ _ _ _ Hfind) as (Hl & Hp & Hmin).
    set (flipped := Local.set_completed (negb (Local.completed todo)) todo).
    assert (Hfind' :
      JsArray.find (fun t => (Local.id t =? id0)%Z)
        (<[i := flipped]> (Local.todos s)) = Some (i, flipped)).
    { apply js_find_intro.
      - apply list_lookup_insert_eq. by eapply lookup_lt_Some.
      - exact Hp.
      - intros j y Hj Hlt. rewrite list_lookup_insert_ne in Hj by lia. eauto. }
    unfold Local.toggleTodo, Local.saveTodos.
    cbn [Local.todos Local.set_todos Local.setItem].
    rewrite Hfind'. cbn [Local.todos Local.set_todos Local.setItem].
    rewrite list_insert_insert_eq. apply list_insert_id.
    rewrite Hl. f_equal. subst flipped. destruct todo as [a b c d e].
    cbn. by rewrite negb_involutive.
  - unfold Local.toggleTodo. by rewrite Hfind.
Qed.

(** X23.  The local [deleteTodo] leaves no record with the id, keeps the
    other records in order, writes the resulting collection to storage,
    and deleting the same id again changes nothing in the collection. *)
Theorem local_delete_removes (s : Local.State) (id0 : Z) :
  let after := Local.deleteTodo id0 s in
  (forall t, t ∈ Local.todos after -> Local.id t ≠ id0)
  ∧ sublist (Local.todos after) (Local.todos s)
  ∧ (forall t, Local.id t ≠ id0 -> t ∈ Local.todos after ↔ t ∈ Local.todos s)
  ∧ Local.getItem after = Some (Local.stringify (Local.todos after))
  ∧ Local.todos (Local.deleteTodo id0 after) = Local.todos after.
Proof.
  cbv zeta. unfold Local.deleteTodo at 1 2 3 4 5.
  rewrite getItem_saveTodos.
  change (Local.todos (Local.saveTodos ?x)) with (Local.todos x).
  cbn [Local.todos Local.set_todos].
  split; [| split; [| split; [| split]]].
  - intros t Ht. apply js_filter_elem in Ht as [_ Ht].
    by apply negb_true_iff, Z.eqb_neq in Ht.
  - apply js_filter_sublist.
  - intros t Ht. rewrite js_filter_elem.
    apply Z.eqb_neq in Ht. rewrite Ht. cbn. tauto.
  - done.
  - unfold Local.deleteTodo, Local.saveTodos.
    cbn [Local.todos Local.set_todos Local.setItem].
    apply js_filter_idem.
Qed.

(** X24.  The local [clearCompleted] leaves exactly the ['active'] view
    of the collection, keeps the counter of active items, hides the
    "Clear completed" button and writes the resulting collection to
    storage. *)
Theorem local_clear_keeps_active (s : Local.State) :
  let after := Local.clearCompleted s in
  Local.todos after = (Local.filteredTodos (Local.set_filter Active s)).1
  ∧ Local.activeTodosCount after = Local.activeTodosCount s
  ∧ Local.show_clear_completed after = false
  ∧ Local.getItem after = Some (Local.stringify (Local.todos after)).
Proof.
  cbv zeta. unfold Local.clearCompleted.
  rewrite getItem_saveTodos.
  unfold Local.activeTodosCount, Local.show_clear_completed.
  change (Local.todos (Local.saveTodos ?x)) with (Local.todos x).
  cbn [Local.todos Local.set_todos].
  split; [done |]. split; [by rewrite js_filter_idem |]. split; [| done].
  apply js_some_filter, js_filter_nil. intros t Ht.
  apply js_filter_elem in Ht as [_ Ht]. by apply negb_true_iff in Ht.
Qed.

(** X25.  In [handleKeyDown] only Enter can change what is stored or what
    the records hold: for any other key the history of storage writes is
    as before and every record keeps its id, text, [completed] and
    creation time; for a key that is neither Enter nor Escape the state
    is returned as given. *)
Theorem handleKeyDown_other_keys
    (key : string) (todo : option nat) (now_id now_created : Z)
    (s : Local.State) :
  key ≠ "Enter" ->
  Local.storage (Local.handleKeyDown key todo now_id now_created s)
  = Local.storage s
  ∧ Spec.content
      <$> Local.todos (Local.handleKeyDown key todo now_id now_created s)
    = Spec.content <$> Local.todos s
  ∧ (key ≠ "Escape" ->
     Local.handleKeyDown key todo now_id now_created s = s).
Proof.
  intros Hkey. unfold Local.handleKeyDown.
  destruct (String.eqb_spec key "Enter") as [-> | _]; [done |].
  destruct (String.eqb_spec key "Escape") as [-> | Hesc]; [| done].
  split; [| split; [| done]].
  - destruct (Local.editing_target todo s) as [i |]; [| done].
    unfold Local.cancelEdit. by destruct (Local.todos s !! i).
  - destruct (Local.editing_target todo s) as [i |]; [| done].
    unfold Local.cancelEdit.
    destruct (Local.todos s !! i) as [t |] eqn:Hi; [| done].
    cbn [Local.todos Local.set_todos]. by apply (fmap_insert_same _ _ _ t).
Qed.

Lemma handleKeyDown_other_keys_witness :
  let s := Local.run_all
             [Local.TypeNewTodo "a"; Local.AddTodo 1 1; Local.StartEditing 0]
             (Local.initial []) in
  Local.storage (Local.handleKeyDown "Escape" (Some 0%nat) 2 2 s)
  = Local.storage s.
Proof.
  cbv zeta.
  refine (proj1 (handleKeyDown_other_keys "Escape" (Some 0%nat) 2 2 _ _)).
  discriminate.
Defined.

(** ** Records are changed in place *)

(** X26.  Toggling, renaming, starting and cancelling an edit never add,
    drop, replace or reorder records: in both variants the list of ids
    and creation times of the collection is the same after as before,
    whatever the server answers. *)
Theorem edits_happen_in_place :
  (forall (s : Remote.State) (id0 : Z) (i : nat)
          (r : Remote.FetchOutcome (option Remote.Updated)),
     let key := fun t => (Remote.id t, Remote.createdAt t) in
     key <$> Remote.todos (Remote.toggleTodo id0 r s) = key <$> Remote.todos s
     ∧ key <$> Remote.todos (Remote.saveEdit i r s) = key <$> Remote.todos s
     ∧ key <$> Remote.todos (Remote.startEditing i s) = key <$> Remote.todos s
     ∧ key <$> Remote.todos (Remote.cancelEdit i s) = key <$> Remote.todos s)
  ∧ (forall (s : Local.State) (id0 : Z) (i : nat),
       let key := fun t => (Local.id t, Local.createdAt t) in
       key <$> Local.todos (Local.toggleTodo id0 s) = key <$> Local.todos s
       ∧ key <$> Local.todos (Local.saveEdit i s) = key <$> Local.todos s
       ∧ key <$> Local.todos (Local.startEditing i s) = key <$> Local.todos s
       ∧ key <$> Local.todos (Local.cancelEdit i s) = key <$> Local.todos s).
Proof.
  split.
  - intros s id0 i r key.
    assert (Hcancel :
      key <$> Remote.todos (Remote.cancelEdit i s) = key <$> Remote.todos s).
    { unfold Remote.cancelEdit.
      destruct (Remote.todos s !! i) as [t |] eqn:Hi; [| done].
      cbn. by apply (fmap_insert_same _ _ _ t). }
    split; [| split; [| split; [| exact Hcancel]]].
    + unfold Remote.toggleTodo.
      destruct (JsArray.find _ _) as [[j todo] |] eqn:Hfind; [| done].
      apply js_find_Some in Hfind as (Hl & _ & _).
      unfold Remote.apiRequest, Remote.apiRequest_settle.
      destruct (Remote.apiRequest_try r) as [err | [d |]]; cbn;
        rewrite list_insert_insert_eq;
        by apply (fmap_insert_same _ _ _ todo).
    + unfold Remote.saveEdit.
      destruct (Remote.todos s !! i) as [t |] eqn:Hi; [| done].
      case_match; [exact Hcancel |].
      unfold Remote.apiRequest, Remote.apiRequest_settle.
      destruct (Remote.apiRequest_try r) as [err | [d |]]; cbn;
        rewrite list_insert_insert_eq;
        by apply (fmap_insert_same _ _ _ t).
    + unfold Remote.startEditing.
      destruct (Remote.todos s !! i) as [t |] eqn:Hi; [| done].
      cbn. by apply (fmap_insert_same _ _ _ t).
  - intros s id0 i key. split; [| split; [| split]].
    + unfold Local.toggleTodo.
      destruct (JsArray.find _ _) as [[j todo] |] eqn:Hfind; [| done].
      apply js_find_Some in Hfind as (Hl & _ & _).
      cbn. by apply (fmap_insert_same _ _ _ todo).
    + unfold Local.saveEdit.
      destruct (Local.todos s !! i) as [t |] eqn:Hi; [| done].
      case_match; [| done]. cbn. by apply (fmap_insert_same _ _ _ t).
    + unfold Local.startEditing.
      destruct (Local.todos s !! i) as [t |] eqn:Hi; [| done].
      cbn. by apply (fmap_insert_same _ _ _ t).
    + unfold Local.cancelEdit.
      destruct (Local.todos s !! i) as [t |] eqn:Hi; [| done].
      cbn. by apply (fmap_insert_same _ _ _ t).
Qed.

(** ** The loading flag *)

Lemma loading_apiRequest_settle {A : Type} (r : Remote.FetchOutcome A) s :
  Remote.loading (Remote.apiRequest_settle r s).1 = Remote.loading s.
Proof.
  unfold Remote.apiRequest_settle. by destruct (Remote.apiRequest_try r).
Qed.

Lemma loading_settle_all {A : Type} (rs : list (Remote.FetchOutcome A)) s :
  Remote.loading (Remote.settle_all rs s) = Remote.loading s.
Proof.
  revert s. induction rs as [| r rs IH]; intros s; [done |].
  change (Remote.settle_all (r :: rs) s)
    with (Remote.settle_all rs (Remote.apiRequest_settle r s).1).
  rewrite IH. apply loading_apiRequest_settle.
Qed.

Lemma loading_send_batch (l : list Remote.Todo) s :
  Remote.loading
    (foldl (fun s todo =>
              Remote.apiRequest_send (Remote.todo_endpoint (Remote.id todo))
                (Remote.mkInit (Some "DELETE") None None) s) s l)
  = Remote.loading s.
Proof.
  revert s. induction l as [| t l IH]; intros s; [done |]. cbn. by rewrite IH.
Qed.

Lemma loading_fetchTodos_settle r s :
  Remote.loading (Remote.fetchTodos_settle r s) = false.
Proof.
  unfold Remote.fetchTodos_settle.
  by destruct (Remote.apiRequest_settle r s) as [s' [err | data]].
Qed.

Lemma loading_step (o : Remote.Op) (s : Remote.State) :
  Remote.loading s = false -> Remote.loading (Remote.run o s) = false.
Proof.
  intros Hs. destruct o; cbn [Remote.run]; try exact Hs.
  - unfold Remote.onMounted, Remote.testConnection.
    repeat case_match; simplify_eq; try done.
    apply loading_fetchTodos_settle.
  - apply loading_fetchTodos_settle.
  - unfold Remote.addTodo. case_match; [exact Hs |].
    by destruct (Remote.apiRequest _ _ _ _) as [s' [err | [d |]]].
  - unfold Remote.toggleTodo.
    destruct (JsArray.find _ _) as [[i todo] |]; [| exact Hs].
    unfold Remote.apiRequest.
    match goal with
    | |- context [Remote.apiRequest_settle ?r ?s0] =>
        pose proof (loading_apiRequest_settle r s0) as Hld;
        destruct (Remote.apiRequest_settle r s0) as [s' [err | [d |]]]
    end; cbn in *; by rewrite Hld.
  - unfold Remote.deleteTodo.
    destruct (JsArray.find _ _) as [[i todo] |]; [| exact Hs].
    unfold Remote.apiRequest.
    match goal with
    | |- context [Remote.apiRequest_settle ?r ?s0] =>
        pose proof (loading_apiRequest_settle r s0) as Hld;
        destruct (Remote.apiRequest_settle r s0) as [s' [err | d]]
    end; cbn in *; by rewrite Hld.
  - unfold Remote.clearCompleted.
    destruct (JsArray.find Remote.failsb _) as [[j rejected] |].
    + rewrite loading_settle_all. apply loading_fetchTodos_settle.
    + cbn. by rewrite loading_send_batch.
  - unfold Remote.startEditing. by case_match.
  - unfold Remote.saveEdit.
    destruct (Remote.todos s !! i) as [todo |] eqn:Hi; [| exact Hs].
    case_match.
    { unfold Remote.cancelEdit. by rewrite Hi. }
    unfold Remote.apiRequest.
    match goal with
    | |- context [Remote.apiRequest_settle ?r ?s0] =>
        pose proof (loading_apiRequest_settle r s0) as Hld;
        destruct (Remote.apiRequest_settle r s0) as [s' [err | [d |]]]
    end; cbn in *; by rewrite Hld.
  - unfold Remote.cancelEdit. by case_match.
Qed.

(** X27.  The loading indicator never stays on: after any sequence of
    operations run from the initial state, whatever the server answers
    and however requests fail, [loading] is false. *)
Theorem loading_never_sticks (ops : list Remote.Op) :
  Remote.loading (Remote.run_all ops Remote.initial) = false.
Proof.
  enough (H : forall s, Remote.loading s = false ->
              Remote.loading (Remote.run_all ops s) = false) by by apply H.
  induction ops as [| o ops IH]; intros s Hs; [done |].
  change (Remote.run_all (o :: ops) s)
    with (Remote.run_all ops (Remote.run o s)).
  by apply IH, loading_step.
Qed.

(** X28.  Loading is idempotent on the collection: running [fetchTodos]
    a second time with the same response leaves the collection the first
    run produced. *)
Theorem fetchTodos_twice
    (r : Remote.FetchOutcome Remote.TodosPayload) (s : Remote.State) :
  Remote.todos (Remote.fetchTodos r (Remote.fetchTodos r s))
  = Remote.todos (Remote.fetchTodos r s).
Proof.
  destruct (todos_fetchTodos_cases r (Remote.fetchTodos r s))
    as [H | (data & arr & Hr & Harr & H)]; [exact H |].
  rewrite H. symmetry. by eapply todos_fetchTodos_loaded.
Qed.

(** ** When adding acts *)

Lemma blank_iff_white (x : string) :
  JsString.truthy (JsString.trim x) = false
  ↔ Forall (fun c => JsString.is_white c = true) (Spec.chars x).
Proof.
  rewrite <- (proj1 (trim_characterised x)).
  rewrite <- not_true_iff_false, truthy_true.
  destruct (decide (JsString.trim x = "")); naive_solver.
Qed.

(** X1.  [addTodo] acts exactly when the input field holds a character
    that is not white space.  In the remote variant a request is sent in
    that case and only then; in the local variant the state (collection
    and storage) changes in that case and only then. *)
Theorem addTodo_acts_on_visible_input :
  (forall (r : Remote.FetchOutcome (option Remote.Created)) (s : Remote.State),
     Remote.sent (Remote.addTodo r s) = Remote.sent s
     ↔ Forall (fun c => JsString.is_white c = true)
              (Spec.chars (Remote.newTodo s)))
  ∧ (forall (now_id now_created : Z) (s : Local.State),
       Local.addTodo now_id now_created s = s
       ↔ Forall (fun c => JsString.is_white c = true)
                (Spec.chars (Local.newTodo s))).
Proof.
  split.
  - intros r s. rewrite <- blank_iff_white. unfold Remote.addTodo.
    destruct (JsString.truthy (JsString.trim (Remote.newTodo s))) eqn:Ht.
    + cbn [negb]. cbv iota. split; [| done]. intros H. exfalso.
      destruct (Remote.apiRequest _ _ _ _) as [s' res] eqn:Hreq.
      match type of Hreq with
      | Remote.apiRequest ?e ?o ?r ?s0 = _ =>
          pose proof (sent_apiRequest e o r s0) as Hs
      end.
      rewrite Hreq in Hs. cbn in Hs.
      assert (Hsent : Remote.sent s' = Remote.sent s)
        by (destruct res as [err | [d |]]; exact H).
      rewrite Hsent in Hs. apply (f_equal length) in Hs.
      rewrite length_app in Hs. cbn in Hs. lia.
    + done.
  - intros n1 n2 s. rewrite <- blank_iff_white. unfold Local.addTodo.
    destruct (JsString.truthy (JsString.trim (Local.newTodo s))) eqn:Ht;
      [| done].
    split; [| done]. intros H. exfalso.
    apply (f_equal (fun x => length (Local.todos x))) in H. cbn in H. lia.
Qed.

(** ** The content type of the requests *)





(** ** Operations that overlap *)

Lemma deleteTodo_split (id0 : Z) (r : Remote.FetchOutcome unit)
    (s : Remote.State) :
  Remote.deleteTodo id0 r s
  = match Remote.deleteTodo_send id0 s with
    | Some (s1, todoIndex, todoBackup) =>
        Remote.deleteTodo_settle todoIndex todoBackup r s1
    | None => s
    end.
Proof.
  unfold Remote.deleteTodo, Remote.deleteTodo_send, Remote.deleteTodo_settle.
  by destruct (JsArray.find _ _) as [[i t] |].
Qed.

(** Why C5 needs operations that do not overlap.  The collection is
    [[1; 2; 3]]; [deleteTodo 2] takes the record out and waits; the user
    reloads and the server, which still has the record and repeats no id,
    answers [[1; 2; 3]]; the deletion then fails and its [catch] block
    puts the backup in at its old index: the ids are [[1; 2; 2; 3]]. *)
Lemma ids_repeat_when_operations_overlap :
  let todo (n : Z) := Remote.mkTodo n "t" false None (Some false) in
  let raw (n : Z) := Remote.mkRaw n (Some "t") None (Some (JBool false)) None in
  let s := Remote.set_todos [todo 1%Z; todo 2%Z; todo 3%Z] Remote.initial in
  let reload : Remote.FetchOutcome Remote.TodosPayload :=
    Remote.Fulfilled
      (Remote.mkResponse true 200 (Some "application/json")
         (Remote.Fulfilled "")
         (Remote.Fulfilled (Remote.PArray [raw 1%Z; raw 2%Z; raw 3%Z]))) in
  let failed : Remote.FetchOutcome unit :=
    Remote.Rejected (Remote.mkError true "Failed to fetch") in
  NoDup (Spec.remote_ids s)
  ∧ Spec.distinct_payload reload
  ∧ match Remote.deleteTodo_send 2 s with
    | Some (s1, todoIndex, todoBackup) =>
        Spec.remote_ids
          (Remote.deleteTodo_settle todoIndex todoBackup failed
             (Remote.fetchTodos reload s1))
        = [1; 2; 2; 3]%Z
    | None => False
    end.
Proof.
  cbv zeta. split; [compute_done |]. split.
  - intros data arr Hd Ha. cbn in Hd. simplify_eq. cbn in Ha. simplify_eq.
    compute_done.
  - reflexivity.
Qed.

(** ** No-break space *)

(** The input of one no-break space between two spaces is blank: [trim]
    empties it and the remote [addTodo] sends nothing. *)
Lemma addTodo_no_break_space :
  let input := String.append " " (String (Ascii.ascii_of_nat 160) " ") in
  let r : Remote.FetchOutcome (option Remote.Created) :=
    Remote.Rejected (Remote.mkError true "Failed to fetch") in
  JsString.trim input = ""
  ∧ Remote.sent (Remote.addTodo r (Remote.set_newTodo input Remote.initial))
    = [].
Proof. cbv zeta. split; reflexivity. Qed.
